(** * The mocked MFRC522 card reader of TonUINO-TNG (test/libs/MFRC522.h)

    A shallow embedding of the mock reader class used by the unit tests:
    its data members become a record, every member function becomes a
    function from the record to a result and the updated record.  Bytes
    and [uint32_t] values are integers in [Z] with the wrap-around of
    every narrowing conversion written out.  Accesses to arrays and
    [memcpy] are checked: they answer [None] where the C++ code would
    touch memory outside the array. *)

From Stdlib Require Import ZArith List Bool Lia.
From Stdlib Require String.
Import String.StringSyntax.
Import ListNotations.
Delimit Scope string_scope with string.
Local Open Scope Z_scope.

(** ** Machine integers *)

Definition is_byte (z : Z) : Prop := 0 <= z < 2 ^ 8.
Definition is_uint32 (z : Z) : Prop := 0 <= z < 2 ^ 32.

(** Conversion to [byte] / [uint8_t] and arithmetic in [uint32_t]. *)
Definition to_byte (z : Z) : Z := z mod 2 ^ 8.
Definition to_uint32 (z : Z) : Z := z mod 2 ^ 32.

(** ** Checked memory operations *)

Notation "x <- e ;; k" :=
  (match e with Some x => k | None => None end)
  (at level 61, e at next level, right associativity).

Module Mem.

(** [a[i]] as a value; [nth_error] answers [None] past the end. *)
Definition load (a : list Z) (i : Z) : option Z :=
  if 0 <=? i then nth_error a (Z.to_nat i) else None.

Fixpoint update (a : list Z) (i : nat) (v : Z) : list Z :=
  match a, i with
  | [], _ => []
  | _ :: a', O => v :: a'
  | x :: a', S i' => x :: update a' i' v
  end.

(** [a[i] = v]. *)
Definition store (a : list Z) (i : Z) (v : Z) : option (list Z) :=
  if (0 <=? i) && (i <? Z.of_nat (length a)) then Some (update a (Z.to_nat i) v) else None.

(** [memcpy(dst, src, n)]: the first [n] bytes of [dst] are replaced by
    the first [n] bytes of [src]; both regions must hold [n] bytes. *)
Definition memcpy (dst src : list Z) (n : nat) : option (list Z) :=
  if (n <=? length src)%nat && (n <=? length dst)%nat
  then Some (firstn n src ++ skipn n dst)
  else None.

End Mem.

(** ** Enumerations *)

Definition PICC_CMD_MF_AUTH_KEY_A : Z := 0x60.
Definition PICC_CMD_MF_AUTH_KEY_B : Z := 0x61.
Definition MF_KEY_SIZE : Z := 6.

Inductive PICC_Type : Set :=
| PICC_TYPE_UNKNOWN
| PICC_TYPE_ISO_14443_4
| PICC_TYPE_ISO_18092
| PICC_TYPE_MIFARE_MINI
| PICC_TYPE_MIFARE_1K
| PICC_TYPE_MIFARE_4K
| PICC_TYPE_MIFARE_UL
| PICC_TYPE_MIFARE_PLUS
| PICC_TYPE_MIFARE_DESFIRE
| PICC_TYPE_TNP3XXX
| PICC_TYPE_NOT_COMPLETE.

Inductive StatusCode : Set :=
| STATUS_OK
| STATUS_ERROR
| STATUS_COLLISION
| STATUS_TIMEOUT
| STATUS_NO_ROOM
| STATUS_INTERNAL_ERROR
| STATUS_INVALID
| STATUS_CRC_WRONG
| STATUS_MIFARE_NACK.

(** ** Data members *)

Record Uid : Set := mkUid {
  size : Z;
  uidByte : list Z;
  sak : Z
}.

Record MIFARE_Key : Set := mkKey {
  keyByte : list Z
}.

Definition buffferSizeRead : Z := 18.
Definition buffferSizeWrite : Z := 16.

Record MFRC522 : Set := mkMFRC522 {
  uid : Uid;
  called_Init : bool;
  called_AntennaOff : bool;
  called_SoftPowerDown : bool;
  called_PICC_RequestA : bool;
  called_PICC_HaltA : bool;
  called_PCD_Authenticate : bool;
  t_buffer : list Z;
  card_is_in : bool
}.

(** The arrays keep their declared sizes: [uidByte[10]] and
    [t_buffer[buffferSizeRead]]. *)
Definition wf (m : MFRC522) : Prop :=
  length (uidByte (uid m)) = 10%nat /\ length (t_buffer m) = 18%nat.

(** The constructors have empty bodies: the flags and [t_buffer] take their
    default member initializers, [uid] has none and starts as whatever [u]
    the storage holds. *)
Definition MFRC522_ctor (u : Uid) : MFRC522 :=
  mkMFRC522 u false false false false false false (repeat 0 18) false.

(** Assignments to single members. *)
Definition set_uid (m : MFRC522) (u : Uid) : MFRC522 :=
  mkMFRC522 u (called_Init m) (called_AntennaOff m) (called_SoftPowerDown m)
            (called_PICC_RequestA m) (called_PICC_HaltA m) (called_PCD_Authenticate m)
            (t_buffer m) (card_is_in m).

Definition set_called_PICC_RequestA (m : MFRC522) (b : bool) : MFRC522 :=
  mkMFRC522 (uid m) (called_Init m) (called_AntennaOff m) (called_SoftPowerDown m)
            b (called_PICC_HaltA m) (called_PCD_Authenticate m)
            (t_buffer m) (card_is_in m).

Definition set_called_PICC_HaltA (m : MFRC522) (b : bool) : MFRC522 :=
  mkMFRC522 (uid m) (called_Init m) (called_AntennaOff m) (called_SoftPowerDown m)
            (called_PICC_RequestA m) b (called_PCD_Authenticate m)
            (t_buffer m) (card_is_in m).

Definition set_called_PCD_Authenticate (m : MFRC522) (b : bool) : MFRC522 :=
  mkMFRC522 (uid m) (called_Init m) (called_AntennaOff m) (called_SoftPowerDown m)
            (called_PICC_RequestA m) (called_PICC_HaltA m) b
            (t_buffer m) (card_is_in m).

Definition set_t_buffer (m : MFRC522) (b : list Z) : MFRC522 :=
  mkMFRC522 (uid m) (called_Init m) (called_AntennaOff m) (called_SoftPowerDown m)
            (called_PICC_RequestA m) (called_PICC_HaltA m) (called_PCD_Authenticate m)
            b (card_is_in m).

Definition set_card_is_in (m : MFRC522) (b : bool) : MFRC522 :=
  mkMFRC522 (uid m) (called_Init m) (called_AntennaOff m) (called_SoftPowerDown m)
            (called_PICC_RequestA m) (called_PICC_HaltA m) (called_PCD_Authenticate m)
            (t_buffer m) b.

Definition set_size (u : Uid) (n : Z) : Uid := mkUid n (uidByte u) (sak u).
Definition set_uidByte (u : Uid) (b : list Z) : Uid := mkUid (size u) b (sak u).
Definition set_sak (u : Uid) (s : Z) : Uid := mkUid (size u) (uidByte u) s.

(** ** Functions for manipulating the MFRC522 *)

Definition PCD_Init (m : MFRC522) : MFRC522 :=
  mkMFRC522 (uid m) true (called_AntennaOff m) (called_SoftPowerDown m)
            (called_PICC_RequestA m) (called_PICC_HaltA m) (called_PCD_Authenticate m)
            (t_buffer m) (card_is_in m).

Definition PCD_AntennaOff (m : MFRC522) : MFRC522 :=
  mkMFRC522 (uid m) (called_Init m) true (called_SoftPowerDown m)
            (called_PICC_RequestA m) (called_PICC_HaltA m) (called_PCD_Authenticate m)
            (t_buffer m) (card_is_in m).

Definition PCD_SoftPowerDown (m : MFRC522) : MFRC522 :=
  mkMFRC522 (uid m) (called_Init m) (called_AntennaOff m) true
            (called_PICC_RequestA m) (called_PICC_HaltA m) (called_PCD_Authenticate m)
            (t_buffer m) (card_is_in m).

(** ** Functions for communicating with PICCs *)

(** [bufferATQA] and [bufferSize] are never dereferenced. *)
Definition PICC_RequestA (m : MFRC522) : StatusCode * MFRC522 :=
  if negb (called_PCD_Authenticate m) && card_is_in m
  then (STATUS_OK, set_called_PICC_RequestA m true)
  else (STATUS_ERROR, set_called_PICC_RequestA m false).

Definition PICC_HaltA (m : MFRC522) : StatusCode * MFRC522 :=
  (STATUS_OK, set_called_PICC_HaltA m true).

(** ** Functions for communicating with MIFARE PICCs *)

(** [uid] is the pointer argument, which hides the member of the same name.
    [&&] evaluates left to right and stops at the first false operand, so
    [key->keyByte[0]] is read only for the expected command and block. *)
Definition PCD_Authenticate (m : MFRC522) (command blockAddr : Z)
           (key : MIFARE_Key) (uid : Uid) : option (StatusCode * MFRC522) :=
  granted <-
    (if (command =? PICC_CMD_MF_AUTH_KEY_A) && (blockAddr =? 7)
     then k0 <- Mem.load (keyByte key) 0 ;;
          Some ((k0 =? 0xff) && negb (size uid =? 0))
     else Some false) ;;
  Some (if (granted : bool)
        then (STATUS_OK, set_called_PCD_Authenticate m true)
        else (STATUS_ERROR, set_called_PCD_Authenticate m false)).

Definition PCD_StopCrypto1 (m : MFRC522) : MFRC522 :=
  set_called_PCD_Authenticate m false.

(** [buffer] is the caller's memory, [bufferSize] the value [*bufferSize];
    the result carries the caller's memory after the call. *)
Definition MIFARE_Read (m : MFRC522) (blockAddr : Z) (buffer : list Z) (bufferSize : Z)
  : option (StatusCode * list Z) :=
  if negb (called_PCD_Authenticate m) && negb (blockAddr =? 4)
     && negb (bufferSize =? buffferSizeRead)
  then Some (STATUS_ERROR, buffer)
  else
    buffer' <- Mem.memcpy buffer (t_buffer m) (Z.to_nat buffferSizeRead) ;;
    Some (STATUS_OK, buffer').

Definition MIFARE_Write (m : MFRC522) (blockAddr : Z) (buffer : list Z) (bufferSize : Z)
  : option (StatusCode * MFRC522) :=
  if negb (called_PCD_Authenticate m) && negb (blockAddr =? 4)
     && negb (bufferSize =? buffferSizeWrite)
  then Some (STATUS_ERROR, m)
  else
    t_buffer' <- Mem.memcpy (t_buffer m) buffer (Z.to_nat buffferSizeWrite) ;;
    Some (STATUS_OK, set_t_buffer m t_buffer').

Definition PCD_NTAG216_AUTH (m : MFRC522) : StatusCode * MFRC522 :=
  (STATUS_ERROR, m).

(** ** Support functions *)

Definition PICC_GetType (sak : Z) : PICC_Type :=
  let sak := Z.land sak 0x7F in
  match sak with
  | 0x04 => PICC_TYPE_NOT_COMPLETE
  | 0x09 => PICC_TYPE_MIFARE_MINI
  | 0x08 => PICC_TYPE_MIFARE_1K
  | 0x18 => PICC_TYPE_MIFARE_4K
  | 0x00 => PICC_TYPE_MIFARE_UL
  | 0x10 | 0x11 => PICC_TYPE_MIFARE_PLUS
  | 0x01 => PICC_TYPE_TNP3XXX
  | 0x20 => PICC_TYPE_ISO_14443_4
  | 0x40 => PICC_TYPE_ISO_18092
  | _ => PICC_TYPE_UNKNOWN
  end.

(** The values with a [case] of their own in [PICC_GetType]. *)
Definition PICC_GetType_cases : list Z :=
  [0x04; 0x09; 0x08; 0x18; 0x00; 0x10; 0x11; 0x01; 0x20; 0x40].

(** ** Convenience functions *)

(** The loop [for (uint8_t i = 0; i < uid.size; ++i) uid.uidByte[i] = i+1;]
    with [n] iterations left. *)
Fixpoint fill_uidByte (n : nat) (i : Z) (bytes : list Z) : option (list Z) :=
  match n with
  | O => Some bytes
  | S n' =>
      bytes' <- Mem.store bytes i (to_byte (i + 1)) ;;
      fill_uidByte n' (to_byte (i + 1)) bytes'
  end.

Definition PICC_ReadCardSerial (m : MFRC522) : option (bool * MFRC522) :=
  if card_is_in m && called_PICC_RequestA m then
    let m := set_called_PICC_RequestA m false in
    let m := set_uid m (set_size (uid m) 4) in
    bytes <- fill_uidByte (Z.to_nat (size (uid m))) 0 (uidByte (uid m)) ;;
    let m := set_uid m (set_uidByte (uid m) bytes) in
    let m := set_uid m (set_sak (uid m) 0x08) in
    Some (true, m)
  else Some (false, m).

(** ** The card behind the reader *)

(** The local array [buffer] of [card_in]. *)
Definition card_in_buffer (cookie version folder mode special special2 : Z) : list Z :=
  let coockie_4 := to_byte (Z.shiftr (Z.land cookie 0x000000ff) 0) in
  let coockie_3 := to_byte (Z.shiftr (Z.land cookie 0x0000ff00) 8) in
  let coockie_2 := to_byte (Z.shiftr (Z.land cookie 0x00ff0000) 16) in
  let coockie_1 := to_byte (Z.shiftr (Z.land cookie 0xff000000) 24) in
  [coockie_1; coockie_2; coockie_3; coockie_4;
   version;
   folder;
   to_byte mode;
   special;
   special2;
   0x00; 0x00; 0x00; 0x00; 0x00; 0x00; 0x00; 0x00; 0x00].

Definition card_in (m : MFRC522) (cookie version folder mode special special2 : Z)
  : option MFRC522 :=
  let m := set_card_is_in m true in
  let buffer := card_in_buffer cookie version folder mode special special2 in
  t_buffer' <- Mem.memcpy (t_buffer m) buffer (Z.to_nat buffferSizeRead) ;;
  Some (set_t_buffer m t_buffer').

Definition card_out (m : MFRC522) : MFRC522 :=
  let m := set_card_is_in m false in
  let m := set_uid m (set_size (uid m) 0) in
  let m := set_uid m (set_sak (uid m) 0) in
  set_called_PICC_RequestA m false.

(** The six reference parameters that [card_decode] assigns. *)
Record DataRecord : Set := mkDataRecord {
  cookie : Z;
  version : Z;
  folder : Z;
  mode : Z;
  special : Z;
  special2 : Z
}.

Definition valid_record (r : DataRecord) : Prop :=
  is_uint32 (cookie r) /\ is_byte (version r) /\ is_byte (folder r) /\
  is_byte (mode r) /\ is_byte (special r) /\ is_byte (special2 r).

(** The body of [card_decode] over an arbitrary block. *)
Definition decode_block (block : list Z) : option DataRecord :=
  b0 <- Mem.load block 0 ;;
  b1 <- Mem.load block 1 ;;
  b2 <- Mem.load block 2 ;;
  b3 <- Mem.load block 3 ;;
  b4 <- Mem.load block 4 ;;
  b5 <- Mem.load block 5 ;;
  b6 <- Mem.load block 6 ;;
  b7 <- Mem.load block 7 ;;
  b8 <- Mem.load block 8 ;;
  Some (mkDataRecord
          (to_uint32 (to_uint32 (to_uint32 (to_uint32 (Z.shiftl (to_uint32 b0) 24) +
                                            to_uint32 (Z.shiftl (to_uint32 b1) 16)) +
                                 to_uint32 (Z.shiftl (to_uint32 b2) 8)) +
                      to_uint32 (Z.shiftl (to_uint32 b3) 0)))
          b4 b5 b6 b7 b8).

Definition card_decode (m : MFRC522) : option DataRecord :=
  decode_block (t_buffer m).

Definition card_in_record (m : MFRC522) (r : DataRecord) : option MFRC522 :=
  card_in m (cookie r) (version r) (folder r) (mode r) (special r) (special2 r).

(** ** Session states

    The specification speaks of four session states; the mock keeps flags.
    [session_state] reads the state off the flags the way the
    specification names them: authenticated once [called_PCD_Authenticate]
    is set, selected once a card identifier is populated ([uid.size != 0]),
    detected once the request was acknowledged, absent otherwise. *)

Inductive SessionState : Set := Absent | Detected | Selected | Authenticated.

Definition session_state (m : MFRC522) : SessionState :=
  if called_PCD_Authenticate m then Authenticated
  else if negb (size (uid m) =? 0) then Selected
  else if called_PICC_RequestA m then Detected
  else Absent.

(** Ending a session: the card leaves and the reader drops the cipher. *)
Definition endSession (m : MFRC522) : MFRC522 := PCD_StopCrypto1 (card_out m).

(** ** Sample data *)

Definition blank_uid : Uid := mkUid 0 (repeat 0 10) 0.
Definition fresh_reader : MFRC522 := MFRC522_ctor blank_uid.
Definition key_FF : MIFARE_Key := mkKey [0xff; 0xff; 0xff; 0xff; 0xff; 0xff].
Definition sample_record : DataRecord := mkDataRecord 0x12345678 1 3 1 0 0.
Definition other_record : DataRecord := mkDataRecord 0x1337b347 2 7 4 5 6.
Definition key_00 : MIFARE_Key := mkKey [0x00; 0x00; 0x00; 0x00; 0x00; 0x00].

(** A card is put on the reader, requested and its serial read. *)
Definition select_run (m : MFRC522) (r : DataRecord) : option MFRC522 :=
  m1 <- card_in_record m r ;;
  let m2 := snd (PICC_RequestA m1) in
  res <- PICC_ReadCardSerial m2 ;;
  Some (snd res).

(** The reader at each step of a session that starts from a fresh one:
    the card is put on, requested, selected and authenticated. *)
Definition present_reader : MFRC522 :=
  mkMFRC522 blank_uid false false false false false false
            [0x13; 0x37; 0xb3; 0x47; 2; 7; 4; 5; 6; 0; 0; 0; 0; 0; 0; 0; 0; 0]
            true.

Definition requested_reader : MFRC522 :=
  set_called_PICC_RequestA present_reader true.

Definition selected_reader : MFRC522 :=
  mkMFRC522 (mkUid 4 [1; 2; 3; 4; 0; 0; 0; 0; 0; 0] 0x08)
            false false false false false false
            [0x13; 0x37; 0xb3; 0x47; 2; 7; 4; 5; 6; 0; 0; 0; 0; 0; 0; 0; 0; 0]
            true.

Definition authenticated_reader : MFRC522 :=
  set_called_PCD_Authenticate selected_reader true.

(** The values of [PICC_Type]. *)
Definition PICC_Type_values : list PICC_Type :=
  [PICC_TYPE_UNKNOWN; PICC_TYPE_ISO_14443_4; PICC_TYPE_ISO_18092; PICC_TYPE_MIFARE_MINI;
   PICC_TYPE_MIFARE_1K; PICC_TYPE_MIFARE_4K; PICC_TYPE_MIFARE_UL; PICC_TYPE_MIFARE_PLUS;
   PICC_TYPE_MIFARE_DESFIRE; PICC_TYPE_TNP3XXX; PICC_TYPE_NOT_COMPLETE].

(** ** Names of the card types *)

(** [F(...)] keeps the literal in flash; the text is what matters here. *)
Definition PICC_GetTypeName (piccType : PICC_Type) : String.string :=
  match piccType with
  | PICC_TYPE_ISO_14443_4 => "PICC compliant with ISO/IEC 14443-4"%string
  | PICC_TYPE_ISO_18092 => "PICC compliant with ISO/IEC 18092 (NFC)"%string
  | PICC_TYPE_MIFARE_MINI => "MIFARE Mini, 320 bytes"%string
  | PICC_TYPE_MIFARE_1K => "MIFARE 1KB"%string
  | PICC_TYPE_MIFARE_4K => "MIFARE 4KB"%string
  | PICC_TYPE_MIFARE_UL => "MIFARE Ultralight or Ultralight C"%string
  | PICC_TYPE_MIFARE_PLUS => "MIFARE Plus"%string
  | PICC_TYPE_MIFARE_DESFIRE => "MIFARE DESFire"%string
  | PICC_TYPE_TNP3XXX => "MIFARE TNP3XXX"%string
  | PICC_TYPE_NOT_COMPLETE => "SAK indicates UID is not complete."%string
  | PICC_TYPE_UNKNOWN => "Unknown type"%string
  end.

(** ** Sequences of calls

    A client drives the reader through its member functions.  A [call]
    names one of them with its arguments, [exec] performs it and keeps the
    reader, [run] performs a list of calls from left to right.  The [Uid]
    given to [PCD_Authenticate] is the reader's own when [None]. *)

Inductive call : Set :=
| Call_PCD_Init
| Call_PCD_AntennaOff
| Call_PCD_SoftPowerDown
| Call_PICC_RequestA
| Call_PICC_HaltA
| Call_PCD_Authenticate (command blockAddr : Z) (key : MIFARE_Key) (u : option Uid)
| Call_PCD_StopCrypto1
| Call_MIFARE_Read (blockAddr : Z) (buffer : list Z) (bufferSize : Z)
| Call_MIFARE_Write (blockAddr : Z) (buffer : list Z) (bufferSize : Z)
| Call_PCD_NTAG216_AUTH
| Call_PICC_ReadCardSerial
| Call_card_in (cookie version folder mode special special2 : Z)
| Call_card_out.

Definition exec (c : call) (m : MFRC522) : option MFRC522 :=
  match c with
  | Call_PCD_Init => Some (PCD_Init m)
  | Call_PCD_AntennaOff => Some (PCD_AntennaOff m)
  | Call_PCD_SoftPowerDown => Some (PCD_SoftPowerDown m)
  | Call_PICC_RequestA => Some (snd (PICC_RequestA m))
  | Call_PICC_HaltA => Some (snd (PICC_HaltA m))
  | Call_PCD_Authenticate command blockAddr key u =>
      res <- PCD_Authenticate m command blockAddr key
               (match u with Some u' => u' | None => uid m end) ;;
      Some (snd res)
  | Call_PCD_StopCrypto1 => Some (PCD_StopCrypto1 m)
  | Call_MIFARE_Read blockAddr buffer bufferSize =>
      res <- MIFARE_Read m blockAddr buffer bufferSize ;;
      Some m
  | Call_MIFARE_Write blockAddr buffer bufferSize =>
      res <- MIFARE_Write m blockAddr buffer bufferSize ;;
      Some (snd res)
  | Call_PCD_NTAG216_AUTH => Some (snd (PCD_NTAG216_AUTH m))
  | Call_PICC_ReadCardSerial =>
      res <- PICC_ReadCardSerial m ;;
      Some (snd res)
  | Call_card_in cookie version folder mode special special2 =>
      card_in m cookie version folder mode special special2
  | Call_card_out => Some (card_out m)
  end.

Fixpoint run (cs : list call) (m : MFRC522) : option MFRC522 :=
  match cs with
  | [] => Some m
  | c :: cs' => m' <- exec c m ;; run cs' m'
  end.

(** The buffers a call brings hold what the call copies: a key has
    [MF_KEY_SIZE] bytes, a read buffer [buffferSizeRead] bytes and a write
    buffer [buffferSizeWrite] bytes. *)
Definition call_sized (c : call) : Prop :=
  match c with
  | Call_PCD_Authenticate _ _ key _ => length (keyByte key) = Z.to_nat MF_KEY_SIZE
  | Call_MIFARE_Read _ buffer _ => (Z.to_nat buffferSizeRead <= length buffer)%nat
  | Call_MIFARE_Write _ buffer _ => (Z.to_nat buffferSizeWrite <= length buffer)%nat
  | _ => True
  end.

(** The identifier is either cleared or the one [PICC_ReadCardSerial] sets. *)
Definition uid_cleared_or_read (u : Uid) : Prop :=
  (size u = 0 /\ sak u = 0) \/
  (size u = 4 /\ sak u = 0x08 /\ firstn 4 (uidByte u) = [1; 2; 3; 4]).

(** A sample session: card on, request, serial, authenticate, write, read,
    stop, card off. *)
Definition sample_calls : list call :=
  [Call_PCD_Init;
   Call_card_in 0x1337b347 2 7 4 5 6;
   Call_PICC_RequestA;
   Call_PICC_ReadCardSerial;
   Call_PCD_Authenticate PICC_CMD_MF_AUTH_KEY_A 7 key_FF None;
   Call_MIFARE_Write 4 (repeat 0xAA 16) 16;
   Call_MIFARE_Read 4 (repeat 0 18) 18;
   Call_PCD_StopCrypto1;
   Call_PICC_HaltA;
   Call_card_out].

(** The reader at the end of [sample_calls] run from a fresh one. *)
Definition sample_final : MFRC522 :=
  mkMFRC522 (mkUid 0 [1; 2; 3; 4; 0; 0; 0; 0; 0; 0] 0)
            true false false false true false
            [0xAA; 0xAA; 0xAA; 0xAA; 0xAA; 0xAA; 0xAA; 0xAA;
             0xAA; 0xAA; 0xAA; 0xAA; 0xAA; 0xAA; 0xAA; 0xAA; 0; 0]
            false.

(** * The colours of the LED ring (src/ring.hpp) *)

Module Ring.

Definition pulse_per_second : Z := 1.
Definition brightness_max : Z := 16.

Record color_t : Set := mk_color_t {
  r : Z;
  g : Z;
  b : Z
}.

Definition to_uint16 (z : Z) : Z := z mod 2 ^ 16.

(** One component of [operator*]:
    [static_cast<byte>(static_cast<uint16_t>(c) * s / 255)], the product
    taken in 16 bits as on the 8-bit target, where [unsigned int] has 16. *)
Definition scale (c s : Z) : Z :=
  to_byte (to_uint16 (to_uint16 c * s) / 255).

(** The same component where [int] has 32 bits and the product is not cut. *)
Definition scale_wide (c s : Z) : Z :=
  to_byte (to_uint16 c * s / 255).

(** [color_t::operator*(const uint8_t s)]. *)
Definition mul (c : color_t) (s : Z) : color_t :=
  mk_color_t (scale (r c) s) (scale (g c) s) (scale (b c) s).

Definition red : color_t := mk_color_t 255 0 0.
Definition green : color_t := mk_color_t 0 255 0.
Definition blue : color_t := mk_color_t 0 0 255.

(** The components are bytes. *)
Definition valid_color (c : color_t) : Prop :=
  is_byte (r c) /\ is_byte (g c) /\ is_byte (b c).

End Ring.

(** * Properties *)

(** ** Bytes of a 32-bit value *)

Lemma land_mask_shiftr (c k : Z) :
  0 <= k -> Z.shiftr (Z.land c (Z.shiftl 0xff k)) k = (c / 2 ^ k) mod 2 ^ 8.
Proof.
  intros Hk.
  rewrite Z.shiftr_land, Z.shiftr_shiftl_l, Z.sub_diag, Z.shiftl_0_r by lia.
  change 0xff with (Z.ones 8).
  rewrite Z.land_ones, Z.shiftr_div_pow2 by lia.
  reflexivity.
Qed.

Lemma card_in_buffer_bytes (c v f mo s s2 : Z) :
  card_in_buffer c v f mo s s2 =
  [(c / 2 ^ 24) mod 2 ^ 8; (c / 2 ^ 16) mod 2 ^ 8; (c / 2 ^ 8) mod 2 ^ 8; c mod 2 ^ 8;
   v; f; mo mod 2 ^ 8; s; s2; 0; 0; 0; 0; 0; 0; 0; 0; 0].
Proof.
  unfold card_in_buffer, to_byte.
  change 0x000000ff with (Z.shiftl 0xff 0).
  change 0x0000ff00 with (Z.shiftl 0xff 8).
  change 0x00ff0000 with (Z.shiftl 0xff 16).
  change 0xff000000 with (Z.shiftl 0xff 24).
  rewrite !land_mask_shiftr by lia.
  rewrite !Z.mod_mod by lia.
  change (2 ^ 0) with 1. rewrite Z.div_1_r.
  reflexivity.
Qed.

Lemma cookie_reassembled (c : Z) :
  is_uint32 c ->
  to_uint32 (to_uint32 (to_uint32
    (to_uint32 (Z.shiftl (to_uint32 ((c / 2 ^ 24) mod 2 ^ 8)) 24) +
     to_uint32 (Z.shiftl (to_uint32 ((c / 2 ^ 16) mod 2 ^ 8)) 16)) +
     to_uint32 (Z.shiftl (to_uint32 ((c / 2 ^ 8) mod 2 ^ 8)) 8)) +
     to_uint32 (Z.shiftl (to_uint32 (c mod 2 ^ 8)) 0)) = c.
Proof.
  unfold is_uint32, to_uint32. intros Hc.
  rewrite !Z.shiftl_mul_pow2 by lia.
  change (2 ^ 0) with 1. change (2 ^ 8) with 256. change (2 ^ 16) with 65536.
  change (2 ^ 24) with 16777216. change (2 ^ 32) with 4294967296 in *.
  assert (H3 : 0 <= (c / 16777216) mod 256 < 256) by (apply Z.mod_pos_bound; lia).
  assert (H2 : 0 <= (c / 65536) mod 256 < 256) by (apply Z.mod_pos_bound; lia).
  assert (H1 : 0 <= (c / 256) mod 256 < 256) by (apply Z.mod_pos_bound; lia).
  assert (H0 : 0 <= c mod 256 < 256) by (apply Z.mod_pos_bound; lia).
  assert (E : c = (c / 16777216) mod 256 * 16777216 + (c / 65536) mod 256 * 65536
                  + (c / 256) mod 256 * 256 + c mod 256).
  { clear H0 H1 H2 H3. Z.div_mod_to_equations. lia. }
  revert E H0 H1 H2 H3.
  generalize ((c / 16777216) mod 256) ((c / 65536) mod 256) ((c / 256) mod 256) (c mod 256).
  intros b3 b2 b1 b0 E H0 H1 H2 H3.
  rewrite !(Z.mod_small b3), !(Z.mod_small b2), !(Z.mod_small b1), !(Z.mod_small b0) by lia.
  rewrite (Z.mod_small (b3 * _)), (Z.mod_small (b2 * _)),
          (Z.mod_small (b1 * _)), (Z.mod_small (b0 * _)) by lia.
  rewrite (Z.mod_small (b3 * _ + b2 * _)) by lia.
  rewrite (Z.mod_small (b3 * _ + b2 * _ + b1 * _)) by lia.
  rewrite Z.mod_small by lia. lia.
Qed.

(** The byte at position [k] counted from the least significant one. *)
Lemma byte_of_cookie (c k : Z) :
  0 <= k -> Z.land (Z.shiftr c (8 * k)) 0xFF = (c / 2 ^ (8 * k)) mod 2 ^ 8.
Proof.
  intros Hk. change 0xFF with (Z.ones 8).
  rewrite Z.land_ones, Z.shiftr_div_pow2 by lia. reflexivity.
Qed.

(** ** Copies *)

Lemma memcpy_whole (dst src : list Z) (n : nat) :
  length src = n -> length dst = n -> Mem.memcpy dst src n = Some src.
Proof.
  intros Hs Hd. unfold Mem.memcpy. subst n. rewrite Hd.
  rewrite Nat.leb_refl. simpl.
  rewrite firstn_all, <- Hd, skipn_all, app_nil_r. reflexivity.
Qed.

Lemma memcpy_defined (dst src : list Z) (n : nat) :
  (n <= length src)%nat -> (n <= length dst)%nat ->
  Mem.memcpy dst src n = Some (firstn n src ++ skipn n dst).
Proof.
  intros Hs Hd. unfold Mem.memcpy.
  apply Nat.leb_le in Hs. apply Nat.leb_le in Hd. rewrite Hs, Hd. reflexivity.
Qed.

Lemma memcpy_length (dst src r : list Z) (n : nat) :
  Mem.memcpy dst src n = Some r -> length r = length dst.
Proof.
  unfold Mem.memcpy.
  destruct (n <=? length src)%nat eqn:Hs; [|discriminate].
  destruct (n <=? length dst)%nat eqn:Hd; [|discriminate].
  simpl. intros [= <-].
  apply Nat.leb_le in Hs. apply Nat.leb_le in Hd.
  rewrite length_app, length_firstn, length_skipn. lia.
Qed.

Lemma card_in_t_buffer (m : MFRC522) (c v f mo s s2 : Z) :
  wf m ->
  card_in m c v f mo s s2 =
  Some (set_t_buffer (set_card_is_in m true) (card_in_buffer c v f mo s s2)).
Proof.
  intros [_ Hlen]. unfold card_in.
  rewrite memcpy_whole; [reflexivity | reflexivity | exact Hlen].
Qed.

(** ** The block codec *)

Lemma decode_block_cons (b0 b1 b2 b3 b4 b5 b6 b7 b8 : Z) (rest : list Z) :
  decode_block (b0 :: b1 :: b2 :: b3 :: b4 :: b5 :: b6 :: b7 :: b8 :: rest) =
  Some (mkDataRecord
          (to_uint32 (to_uint32 (to_uint32 (to_uint32 (Z.shiftl (to_uint32 b0) 24) +
                                            to_uint32 (Z.shiftl (to_uint32 b1) 16)) +
                                 to_uint32 (Z.shiftl (to_uint32 b2) 8)) +
                      to_uint32 (Z.shiftl (to_uint32 b3) 0)))
          b4 b5 b6 b7 b8).
Proof. reflexivity. Qed.

(** C2: for every data record (32-bit cookie, five 8-bit fields), storing
    it with [card_in] and reading it back with [card_decode] succeeds and
    yields exactly that record. *)
Theorem card_decode_card_in (m : MFRC522) (r : DataRecord) :
  wf m -> valid_record r ->
  exists m', card_in_record m r = Some m' /\ card_decode m' = Some r.
Proof.
  intros Hwf (Hc & _ & _ & Hmo & _ & _).
  unfold card_in_record. rewrite card_in_t_buffer by exact Hwf.
  eexists; split; [reflexivity|].
  unfold card_decode. cbn [t_buffer set_t_buffer].
  rewrite card_in_buffer_bytes, decode_block_cons.
  rewrite cookie_reassembled by exact Hc.
  rewrite (Z.mod_small (mode r)) by exact Hmo.
  destruct r; reflexivity.
Qed.

Lemma card_decode_card_in_witness :
  exists m', card_in_record fresh_reader other_record = Some m' /\
             card_decode m' = Some other_record.
Proof.
  apply (card_decode_card_in fresh_reader other_record).
  - split; reflexivity.
  - unfold valid_record, is_uint32, is_byte; simpl; lia.
Defined.

(** C4: the block written by [card_in] has bytes 0-3 equal to the cookie,
    most significant byte first, bytes 4 to 8 equal to version, folder,
    mode, special and special2, and zero in every position from 9 to the
    end of the 18-byte buffer. *)
Theorem card_in_layout (m : MFRC522) (r : DataRecord) :
  wf m -> valid_record r ->
  exists m', card_in_record m r = Some m' /\
    length (t_buffer m') = 18%nat /\
    (forall i, 0 <= i <= 3 ->
       Mem.load (t_buffer m') i = Some (Z.land (Z.shiftr (cookie r) (8 * (3 - i))) 0xFF)) /\
    Mem.load (t_buffer m') 4 = Some (version r) /\
    Mem.load (t_buffer m') 5 = Some (folder r) /\
    Mem.load (t_buffer m') 6 = Some (mode r) /\
    Mem.load (t_buffer m') 7 = Some (special r) /\
    Mem.load (t_buffer m') 8 = Some (special2 r) /\
    (forall i, 9 <= i < 18 -> Mem.load (t_buffer m') i = Some 0).
Proof.
  intros Hwf (Hc & _ & _ & Hmo & _ & _).
  unfold card_in_record. rewrite card_in_t_buffer by exact Hwf.
  eexists; split; [reflexivity|].
  cbn [t_buffer set_t_buffer].
  rewrite card_in_buffer_bytes, (Z.mod_small (mode r)) by exact Hmo.
  split; [reflexivity|].
  split.
  { intros i Hi. rewrite byte_of_cookie by lia.
    assert (Ei : i = 0 \/ i = 1 \/ i = 2 \/ i = 3) by lia.
    destruct Ei as [-> | [-> | [-> | ->]]]; unfold Mem.load; simpl;
      try reflexivity.
    rewrite Z.div_1_r. reflexivity. }
  repeat (split; [reflexivity|]).
  intros i Hi.
  assert (Ei : i = 9 \/ i = 10 \/ i = 11 \/ i = 12 \/ i = 13 \/ i = 14 \/
               i = 15 \/ i = 16 \/ i = 17) by lia.
  repeat (destruct Ei as [-> | Ei]; [reflexivity|]). subst i. reflexivity.
Qed.

Lemma card_in_layout_witness :
  exists m', card_in_record fresh_reader other_record = Some m' /\
    length (t_buffer m') = 18%nat /\
    (forall i, 0 <= i <= 3 ->
       Mem.load (t_buffer m') i =
       Some (Z.land (Z.shiftr (cookie other_record) (8 * (3 - i))) 0xFF)) /\
    Mem.load (t_buffer m') 4 = Some (version other_record) /\
    Mem.load (t_buffer m') 5 = Some (folder other_record) /\
    Mem.load (t_buffer m') 6 = Some (mode other_record) /\
    Mem.load (t_buffer m') 7 = Some (special other_record) /\
    Mem.load (t_buffer m') 8 = Some (special2 other_record) /\
    (forall i, 9 <= i < 18 -> Mem.load (t_buffer m') i = Some 0).
Proof.
  apply (card_in_layout fresh_reader other_record).
  - split; reflexivity.
  - unfold valid_record, is_uint32, is_byte; simpl; lia.
Defined.

(** ** Classification of the SAK byte *)

Lemma PICC_GetType_masked (s t : Z) :
  Z.land s 0x7F = Z.land t 0x7F -> PICC_GetType s = PICC_GetType t.
Proof. unfold PICC_GetType. intros ->. reflexivity. Qed.

Lemma PICC_GetType_default (s : Z) :
  In (Z.land s 0x7F) PICC_GetType_cases \/ PICC_GetType s = PICC_TYPE_UNKNOWN.
Proof.
  unfold PICC_GetType, PICC_GetType_cases.
  generalize (Z.land s 0x7F). intros x.
  destruct x as [|p|p]; [left; simpl; tauto | | right; reflexivity].
  do 8 (try (destruct p as [p|p|]; try (right; reflexivity)));
    left; cbv [In]; repeat (first [left; reflexivity | right]).
Qed.

Lemma land_lor_top_bit (s : Z) : Z.land (Z.lor s 0x80) 0x7F = Z.land s 0x7F.
Proof.
  rewrite Z.land_lor_distr_l.
  change (Z.land 0x80 0x7F) with 0. apply Z.lor_0_r.
Qed.

Lemma land_clearbit_top_bit (s : Z) : Z.land (Z.clearbit s 7) 0x7F = Z.land s 0x7F.
Proof.
  rewrite Z.clearbit_spec', Z.ldiff_land, <- Z.land_assoc.
  reflexivity.
Qed.

Lemma land_to_byte (s : Z) : Z.land (to_byte s) 0x7F = Z.land s 0x7F.
Proof.
  unfold to_byte. rewrite <- Z.land_ones by lia.
  rewrite <- Z.land_assoc. reflexivity.
Qed.

(** C5: classification is a total function of the capability byte; it
    maps 0x08 to MIFARE 1K, 0x18 to MIFARE 4K, 0x00 to Ultralight, 0x04 to
    the incomplete-selection class and 0xFF to Unknown, and every value
    that matches no case after masking is Unknown. *)
Theorem PICC_GetType_classification :
  PICC_GetType 0x08 = PICC_TYPE_MIFARE_1K /\
  PICC_GetType 0x18 = PICC_TYPE_MIFARE_4K /\
  PICC_GetType 0x00 = PICC_TYPE_MIFARE_UL /\
  PICC_GetType 0x04 = PICC_TYPE_NOT_COMPLETE /\
  PICC_GetType 0xFF = PICC_TYPE_UNKNOWN /\
  (forall s, In (PICC_GetType s) PICC_Type_values) /\
  (forall s, ~ In (Z.land s 0x7F) PICC_GetType_cases ->
             PICC_GetType s = PICC_TYPE_UNKNOWN).
Proof.
  repeat (split; [reflexivity|]).
  split.
  - intros s. unfold PICC_Type_values.
    destruct (PICC_GetType s); cbv [In]; repeat (first [left; reflexivity | right]).
  - intros s Hs. destruct (PICC_GetType_default s) as [H | H]; [contradiction | exact H].
Qed.

Lemma PICC_GetType_classification_witness :
  ~ In (Z.land 0x7A 0x7F) PICC_GetType_cases /\ PICC_GetType 0x7A = PICC_TYPE_UNKNOWN.
Proof.
  assert (H : ~ In (Z.land 0x7A 0x7F) PICC_GetType_cases).
  { cbv [In PICC_GetType_cases]. intros H.
    repeat (destruct H as [H | H]; [discriminate H|]). exact H. }
  split; [exact H|].
  exact (proj2 (proj2 (proj2 (proj2 (proj2 (proj2
           PICC_GetType_classification))))) 0x7A H).
Defined.

(** C9: classification ignores the topmost bit of the capability byte:
    setting it, clearing it or masking it off gives the same class, also
    after the value is narrowed to a byte; a value that matches no case
    after masking is classified Unknown. *)
Theorem PICC_GetType_ignores_top_bit (s : Z) :
  PICC_GetType (Z.lor s 0x80) = PICC_GetType s /\
  PICC_GetType (to_byte (Z.lor s 0x80)) = PICC_GetType s /\
  PICC_GetType (Z.clearbit s 7) = PICC_GetType s /\
  PICC_GetType (Z.land s 0x7F) = PICC_GetType s /\
  (In (Z.land s 0x7F) PICC_GetType_cases \/ PICC_GetType s = PICC_TYPE_UNKNOWN).
Proof.
  split; [apply PICC_GetType_masked, land_lor_top_bit|].
  split.
  { apply PICC_GetType_masked. rewrite land_to_byte. apply land_lor_top_bit. }
  split; [apply PICC_GetType_masked, land_clearbit_top_bit|].
  split.
  { apply PICC_GetType_masked. rewrite <- Z.land_assoc. reflexivity. }
  apply PICC_GetType_default.
Qed.

(** ** The sample states are reached by running the reader *)

Lemma present_reader_reached :
  card_in_record fresh_reader other_record = Some present_reader.
Proof. reflexivity. Qed.

Lemma requested_reader_reached :
  PICC_RequestA present_reader = (STATUS_OK, requested_reader).
Proof. reflexivity. Qed.

Lemma selected_reader_reached :
  PICC_ReadCardSerial requested_reader = Some (true, selected_reader) /\
  select_run fresh_reader other_record = Some selected_reader.
Proof. split; reflexivity. Qed.

Lemma authenticated_reader_reached :
  PCD_Authenticate selected_reader PICC_CMD_MF_AUTH_KEY_A 7 key_FF (uid selected_reader)
  = Some (STATUS_OK, authenticated_reader).
Proof. reflexivity. Qed.

(** ** Assignments that change nothing *)

Lemma set_called_PCD_Authenticate_same (m : MFRC522) :
  set_called_PCD_Authenticate m (called_PCD_Authenticate m) = m.
Proof. destruct m; reflexivity. Qed.

Lemma set_called_PICC_RequestA_same (m : MFRC522) :
  set_called_PICC_RequestA m (called_PICC_RequestA m) = m.
Proof. destruct m; reflexivity. Qed.

(** ** Ending the session *)

(** C7: ending the session ([card_out] together with [PCD_StopCrypto1])
    leads from every state to Absent with [uid.size = 0], [uid.sak = 0],
    the presence and request flags false and the authenticated flag
    false; doing it twice is the same as doing it once, and the order of
    the two calls does not matter. *)
Theorem endSession_absent (m : MFRC522) :
  session_state (endSession m) = Absent /\
  size (uid (endSession m)) = 0 /\
  sak (uid (endSession m)) = 0 /\
  card_is_in (endSession m) = false /\
  called_PICC_RequestA (endSession m) = false /\
  called_PCD_Authenticate (endSession m) = false /\
  endSession (endSession m) = endSession m /\
  card_out (PCD_StopCrypto1 m) = endSession m.
Proof.
  destruct m as [[sz bytes sk] i a p rq h au buf c].
  repeat split.
Qed.

(** [card_out] alone keeps the authenticated flag and the identifier bytes. *)
Lemma card_out_keeps (m : MFRC522) :
  called_PCD_Authenticate (card_out m) = called_PCD_Authenticate m /\
  uidByte (uid (card_out m)) = uidByte (uid m) /\
  t_buffer (card_out m) = t_buffer m.
Proof. repeat split. Qed.

(** ** Detection *)

(** C10: while the authenticated flag is set, [PICC_RequestA] answers
    [STATUS_ERROR] whether or not a card is in, clears the
    request-acknowledged flag and changes nothing else; it answers
    [STATUS_OK] exactly when no authentication is active and a card is in. *)
Theorem PICC_RequestA_while_authenticated (m : MFRC522) :
  (called_PCD_Authenticate m = true ->
     PICC_RequestA m = (STATUS_ERROR, set_called_PICC_RequestA m false) /\
     called_PICC_RequestA (snd (PICC_RequestA m)) = false) /\
  (fst (PICC_RequestA m) = STATUS_OK <->
     called_PCD_Authenticate m = false /\ card_is_in m = true).
Proof.
  unfold PICC_RequestA.
  destruct (called_PCD_Authenticate m), (card_is_in m); simpl;
    repeat split; try reflexivity; try discriminate;
    intros [Ha Hc]; discriminate.
Qed.

Lemma PICC_RequestA_while_authenticated_witness :
  card_is_in authenticated_reader = true /\
  PICC_RequestA authenticated_reader
  = (STATUS_ERROR, set_called_PICC_RequestA authenticated_reader false) /\
  called_PICC_RequestA (snd (PICC_RequestA authenticated_reader)) = false.
Proof.
  split; [reflexivity|].
  apply (proj1 (PICC_RequestA_while_authenticated authenticated_reader)).
  reflexivity.
Defined.

(** ** Authentication *)

Lemma session_state_unselected (m : MFRC522) :
  session_state m = Absent \/ session_state m = Detected ->
  called_PCD_Authenticate m = false /\ (size (uid m) =? 0) = true.
Proof.
  unfold session_state.
  destruct (called_PCD_Authenticate m); [intros [H | H]; discriminate H|].
  destruct (size (uid m) =? 0); simpl; [split; reflexivity|].
  intros [H | H]; discriminate H.
Qed.

(** C3, as the code has it: [PCD_Authenticate] answers [STATUS_OK] only
    when [uid.size != 0] (and the command is key-A authentication, the
    block is 7 and the first key byte is 0xFF), and then sets the
    authenticated flag; every other call answers [STATUS_ERROR] and clears
    that flag, touching nothing else.  From Absent or Detected the call
    therefore fails with [STATUS_ERROR] and leaves the state as it was. *)
Theorem PCD_Authenticate_guard (m : MFRC522) (command blockAddr : Z)
        (key : MIFARE_Key) (u : Uid) :
  length (keyByte key) = Z.to_nat MF_KEY_SIZE ->
  exists st m',
    PCD_Authenticate m command blockAddr key u = Some (st, m') /\
    (st = STATUS_OK ->
       size u <> 0 /\ command = PICC_CMD_MF_AUTH_KEY_A /\ blockAddr = 7 /\
       Mem.load (keyByte key) 0 = Some 0xff /\
       m' = set_called_PCD_Authenticate m true) /\
    (st <> STATUS_OK ->
       st = STATUS_ERROR /\ m' = set_called_PCD_Authenticate m false) /\
    (u = uid m -> session_state m = Absent \/ session_state m = Detected ->
       st = STATUS_ERROR /\ m' = m).
Proof.
  intros Hkey. destruct key as [[|k0 ks]]; [discriminate Hkey|].
  unfold PCD_Authenticate. cbn [keyByte Mem.load Z.leb Z.compare Z.to_nat nth_error].
  destruct (command =? PICC_CMD_MF_AUTH_KEY_A) eqn:Hc;
    destruct (blockAddr =? 7) eqn:Hb; cbn [andb];
    try (do 2 eexists; split; [reflexivity|];
         split; [intros H; discriminate H|];
         split; [intros _; split; reflexivity|];
         intros -> Hs; apply session_state_unselected in Hs as [Ha _];
         split; [reflexivity|];
         rewrite <- Ha at 1; apply set_called_PCD_Authenticate_same).
  apply Z.eqb_eq in Hc. apply Z.eqb_eq in Hb.
  destruct (k0 =? 0xff) eqn:Hk; destruct (size u =? 0) eqn:Hz; cbn [andb negb];
    try (do 2 eexists; split; [reflexivity|];
         split; [intros H; discriminate H|];
         split; [intros _; split; reflexivity|];
         intros -> Hs; apply session_state_unselected in Hs as [Ha _];
         split; [reflexivity|];
         rewrite <- Ha at 1; apply set_called_PCD_Authenticate_same).
  do 2 eexists; split; [reflexivity|].
  apply Z.eqb_eq in Hk. apply Z.eqb_neq in Hz.
  split; [intros _; subst k0; repeat split; assumption|].
  split; [intros H; contradiction H; reflexivity|].
  intros -> Hs. apply session_state_unselected in Hs as [_ Hs].
  apply Z.eqb_eq in Hs. contradiction.
Qed.

Lemma PCD_Authenticate_guard_witness :
  session_state fresh_reader = Absent /\
  exists st m',
    PCD_Authenticate fresh_reader PICC_CMD_MF_AUTH_KEY_A 7 key_FF (uid fresh_reader)
    = Some (st, m') /\ st = STATUS_ERROR /\ m' = fresh_reader.
Proof.
  split; [reflexivity|].
  destruct (PCD_Authenticate_guard fresh_reader PICC_CMD_MF_AUTH_KEY_A 7 key_FF
              (uid fresh_reader)) as (st & m' & Hrun & _ & _ & Hfail).
  - reflexivity.
  - exists st, m'. split; [exact Hrun|].
    apply Hfail; [reflexivity | left; reflexivity].
Defined.

(** C3 as stated fails in the Authenticated state: a repeated call with
    the accepted arguments answers [STATUS_OK], and a call with a wrong key
    answers [STATUS_ERROR] and leaves the Authenticated state. *)
Lemma PCD_Authenticate_from_Authenticated :
  session_state authenticated_reader = Authenticated /\
  PCD_Authenticate authenticated_reader PICC_CMD_MF_AUTH_KEY_A 7 key_FF
                   (uid authenticated_reader)
  = Some (STATUS_OK, authenticated_reader) /\
  PCD_Authenticate authenticated_reader PICC_CMD_MF_AUTH_KEY_A 7 key_00
                   (uid authenticated_reader)
  = Some (STATUS_ERROR, selected_reader) /\
  session_state selected_reader = Selected /\
  selected_reader <> authenticated_reader.
Proof.
  repeat (split; [reflexivity|]). intros H. discriminate H.
Qed.

(** ** Reading and writing blocks *)




(** C8: for block address 4, [MIFARE_Read] and [MIFARE_Write] answer
    [STATUS_OK] in every state, authenticated or not, whatever buffer size
    is announced: the read hands out the stored block, the write replaces
    its first 16 bytes. *)
Theorem MIFARE_block_4_always_ok (m : MFRC522) (rbuf wbuf : list Z) (rsize wsize : Z) :
  wf m -> (18 <= length rbuf)%nat -> (16 <= length wbuf)%nat ->
  MIFARE_Read m 4 rbuf rsize = Some (STATUS_OK, t_buffer m ++ skipn 18 rbuf) /\
  MIFARE_Write m 4 wbuf wsize
  = Some (STATUS_OK, set_t_buffer m (firstn 16 wbuf ++ skipn 16 (t_buffer m))).
Proof.
  intros [_ Hlen] Hr Hw. unfold MIFARE_Read, MIFARE_Write.
  change (negb (4 =? 4)) with false. rewrite andb_false_r. cbn [andb].
  change (Z.to_nat buffferSizeRead) with 18%nat.
  change (Z.to_nat buffferSizeWrite) with 16%nat.
  rewrite !memcpy_defined by lia.
  rewrite (firstn_all2 (n := 18) (t_buffer m)) by lia.
  split; reflexivity.
Qed.

Lemma MIFARE_block_4_always_ok_witness :
  called_PCD_Authenticate selected_reader = false /\
  MIFARE_Read selected_reader 4 (repeat 0 18) 0
  = Some (STATUS_OK, t_buffer selected_reader ++ skipn 18 (repeat 0 18)) /\
  MIFARE_Write selected_reader 4 (repeat 0xAA 16) 0
  = Some (STATUS_OK, set_t_buffer selected_reader
                       (firstn 16 (repeat 0xAA 16) ++ skipn 16 (t_buffer selected_reader))).
Proof.
  split; [reflexivity|].
  apply (MIFARE_block_4_always_ok selected_reader (repeat 0 18) (repeat 0xAA 16) 0 0).
  - split; reflexivity.
  - simpl; lia.
  - simpl; lia.
Defined.

(** ** What the successful steps of a session leave behind *)

Lemma PICC_RequestA_ok (m m' : MFRC522) :
  PICC_RequestA m = (STATUS_OK, m') ->
  m' = set_called_PICC_RequestA m true /\
  called_PCD_Authenticate m = false /\ card_is_in m = true.
Proof.
  unfold PICC_RequestA.
  destruct (called_PCD_Authenticate m), (card_is_in m); cbn [negb andb];
    intros H; inversion H; repeat split.
Qed.

Lemma store_length (a a' : list Z) (i v : Z) :
  Mem.store a i v = Some a' -> length a' = length a.
Proof.
  unfold Mem.store. destruct ((0 <=? i) && (i <? Z.of_nat (length a))); [|discriminate].
  intros [= <-]. generalize (Z.to_nat i). clear i.
  induction a as [|x a IH]; intros [|n]; cbn [Mem.update length]; auto.
Qed.

Lemma fill_uidByte_length (n : nat) (i : Z) (bytes bytes' : list Z) :
  fill_uidByte n i bytes = Some bytes' -> length bytes' = length bytes.
Proof.
  revert i bytes. induction n as [|n IH]; intros i bytes; cbn [fill_uidByte].
  - intros [= <-]. reflexivity.
  - destruct (Mem.store bytes i (to_byte (i + 1))) as [b|] eqn:Hs; [|discriminate].
    intros H. apply IH in H. apply store_length in Hs. congruence.
Qed.

Lemma PICC_ReadCardSerial_true (m m' : MFRC522) :
  PICC_ReadCardSerial m = Some (true, m') ->
  size (uid m') = 4 /\ sak (uid m') = 0x08 /\
  length (uidByte (uid m')) = length (uidByte (uid m)) /\
  t_buffer m' = t_buffer m /\
  called_PCD_Authenticate m' = called_PCD_Authenticate m /\
  called_PICC_RequestA m' = false /\
  card_is_in m' = true.
Proof.
  unfold PICC_ReadCardSerial.
  destruct (card_is_in m) eqn:Hc; destruct (called_PICC_RequestA m) eqn:Hr;
    cbn [andb]; try (intros H; discriminate H).
  cbn [uid set_uid set_called_PICC_RequestA set_size size uidByte].
  destruct (fill_uidByte (Z.to_nat 4) 0 (uidByte (uid m))) as [bytes|] eqn:Hf;
    [|discriminate].
  intros [= <-]. apply fill_uidByte_length in Hf.
  cbn. repeat split; assumption.
Qed.

(** With its arrays in place, reading the serial of a requested card
    answers. *)
Lemma PICC_ReadCardSerial_defined (m : MFRC522) :
  wf m -> exists r, PICC_ReadCardSerial m = Some r.
Proof.
  intros [Hu _]. unfold PICC_ReadCardSerial.
  destruct (card_is_in m && called_PICC_RequestA m); [|eexists; reflexivity].
  cbn [uid set_uid set_called_PICC_RequestA set_size size uidByte].
  destruct (uidByte (uid m)) as [|b0 [|b1 [|b2 [|b3 [|b4 [|b5 [|b6 [|b7 [|b8 [|b9 [|]]]]]]]]]]];
    try discriminate Hu.
  eexists; reflexivity.
Qed.

Lemma PCD_Authenticate_ok (m m' : MFRC522) (command blockAddr : Z)
      (key : MIFARE_Key) (u : Uid) :
  PCD_Authenticate m command blockAddr key u = Some (STATUS_OK, m') ->
  m' = set_called_PCD_Authenticate m true.
Proof.
  unfold PCD_Authenticate.
  destruct (if (command =? PICC_CMD_MF_AUTH_KEY_A) && (blockAddr =? 7)
            then k0 <- Mem.load (keyByte key) 0 ;;
                 Some ((k0 =? 0xff) && negb (size u =? 0))
            else Some false) as [[|]|]; intros H; inversion H; reflexivity.
Qed.

(** ** The arrays keep their sizes *)

Lemma wf_MFRC522_ctor (u : Uid) :
  length (uidByte u) = 10%nat -> wf (MFRC522_ctor u).
Proof. intros Hu. split; [exact Hu | reflexivity]. Qed.

Lemma wf_PICC_RequestA (m : MFRC522) : wf m -> wf (snd (PICC_RequestA m)).
Proof.
  unfold PICC_RequestA.
  destruct (negb (called_PCD_Authenticate m) && card_is_in m); intros H; exact H.
Qed.

Lemma wf_PICC_ReadCardSerial (m m' : MFRC522) (b : bool) :
  wf m -> PICC_ReadCardSerial m = Some (b, m') -> wf m'.
Proof.
  intros [Hu Ht]. destruct b.
  - intros H. apply PICC_ReadCardSerial_true in H as (_ & _ & Hl & Hb & _).
    split; congruence.
  - unfold PICC_ReadCardSerial.
    destruct (card_is_in m && called_PICC_RequestA m).
    + destruct (fill_uidByte _ _ _); intros H; discriminate H.
    + intros [= <-]. split; assumption.
Qed.

Lemma wf_PCD_Authenticate (m m' : MFRC522) (command blockAddr : Z)
      (key : MIFARE_Key) (u : Uid) (st : StatusCode) :
  wf m -> PCD_Authenticate m command blockAddr key u = Some (st, m') -> wf m'.
Proof.
  intros Hwf. unfold PCD_Authenticate.
  destruct (if (command =? PICC_CMD_MF_AUTH_KEY_A) && (blockAddr =? 7)
            then k0 <- Mem.load (keyByte key) 0 ;;
                 Some ((k0 =? 0xff) && negb (size u =? 0))
            else Some false) as [[|]|]; intros H; inversion H; exact Hwf.
Qed.

Lemma wf_MIFARE_Write (m m' : MFRC522) (blockAddr : Z) (buffer : list Z)
      (bufferSize : Z) (st : StatusCode) :
  wf m -> MIFARE_Write m blockAddr buffer bufferSize = Some (st, m') -> wf m'.
Proof.
  intros [Hu Ht]. unfold MIFARE_Write.
  destruct (negb (called_PCD_Authenticate m) && negb (blockAddr =? 4)
            && negb (bufferSize =? buffferSizeWrite)).
  - intros [= _ <-]. split; assumption.
  - destruct (Mem.memcpy (t_buffer m) buffer (Z.to_nat buffferSizeWrite)) as [t|] eqn:Hc;
      [|discriminate].
    intros [= _ <-]. apply memcpy_length in Hc. split; [exact Hu|].
    cbn [t_buffer set_t_buffer]. congruence.
Qed.

Lemma wf_card_in (m m' : MFRC522) (c v f mo s s2 : Z) :
  wf m -> card_in m c v f mo s s2 = Some m' -> wf m'.
Proof.
  intros Hwf. rewrite card_in_t_buffer by exact Hwf.
  intros [= <-]. destruct Hwf as [Hu _]. split; [exact Hu | reflexivity].
Qed.

Lemma wf_endSession (m : MFRC522) : wf m -> wf (endSession m).
Proof. intros H. exact H. Qed.

(** ** Blocks that agree on their first bytes *)

Lemma load_prefix (l l' : list Z) (n : nat) (i : Z) :
  firstn n l = firstn n l' -> i < Z.of_nat n -> Mem.load l i = Mem.load l' i.
Proof.
  intros Hp Hi. unfold Mem.load. destruct (0 <=? i) eqn:H0; [|reflexivity].
  apply Z.leb_le in H0.
  assert (Hlt : (Z.to_nat i <? n)%nat = true) by (apply Nat.ltb_lt; lia).
  pose proof (nth_error_firstn n l (Z.to_nat i)) as H1.
  pose proof (nth_error_firstn n l' (Z.to_nat i)) as H2.
  rewrite Hlt in H1, H2. rewrite <- H1, <- H2, Hp. reflexivity.
Qed.

Lemma decode_block_prefix (l l' : list Z) :
  firstn 9 l = firstn 9 l' -> decode_block l = decode_block l'.
Proof.
  intros Hp. unfold decode_block.
  rewrite (load_prefix l l' 9 0), (load_prefix l l' 9 1), (load_prefix l l' 9 2),
    (load_prefix l l' 9 3), (load_prefix l l' 9 4), (load_prefix l l' 9 5),
    (load_prefix l l' 9 6), (load_prefix l l' 9 7), (load_prefix l l' 9 8)
    by (assumption || lia).
  reflexivity.
Qed.

Lemma firstn_9_written (wbuf rest : list Z) :
  (16 <= length wbuf)%nat -> firstn 9 (firstn 16 wbuf ++ rest) = firstn 9 wbuf.
Proof.
  intros Hw. rewrite firstn_app, firstn_firstn, firstn_length_le by exact Hw.
  cbn [Nat.sub Nat.min firstn]. apply app_nil_r.
Qed.

(** ** A whole session *)

(** C6: after a successful detect, select (capability byte 0x08, a MIFARE
    1K card) and [PCD_Authenticate] of block 7 with a key whose first byte
    is 0xFF, writing block 7 with a block that carries the record
    {cookie 0x12345678, version 1, folder 3, mode 1, special 0, special2 0}
    answers [STATUS_OK], the read of block 7 that follows answers
    [STATUS_OK], and what it hands out decodes to that record. *)
Theorem write_then_read_block_7 (m0 m1 m2 m3 : MFRC522) (key : MIFARE_Key)
        (wbuf rbuf : list Z) :
  wf m0 ->
  PICC_RequestA m0 = (STATUS_OK, m1) ->
  PICC_ReadCardSerial m1 = Some (true, m2) ->
  Mem.load (keyByte key) 0 = Some 0xFF ->
  PCD_Authenticate m2 PICC_CMD_MF_AUTH_KEY_A 7 key (uid m2) = Some (STATUS_OK, m3) ->
  (16 <= length wbuf)%nat ->
  firstn 9 wbuf
  = firstn 9 (card_in_buffer (cookie sample_record) (version sample_record)
                (folder sample_record) (mode sample_record)
                (special sample_record) (special2 sample_record)) ->
  (18 <= length rbuf)%nat ->
  sak (uid m2) = 0x08 /\
  PICC_GetType (sak (uid m2)) = PICC_TYPE_MIFARE_1K /\
  exists m4 rbuf',
    MIFARE_Write m3 7 wbuf buffferSizeWrite = Some (STATUS_OK, m4) /\
    MIFARE_Read m4 7 rbuf buffferSizeRead = Some (STATUS_OK, rbuf') /\
    firstn 16 rbuf' = firstn 16 wbuf /\
    decode_block rbuf' = Some sample_record /\
    card_decode m4 = Some sample_record.
Proof.
  intros [_ Hlen] Hreq Hsel _ Hauth Hw Hrec Hr.
  apply PICC_RequestA_ok in Hreq as (-> & _ & _).
  apply PICC_ReadCardSerial_true in Hsel as (_ & Hsak & _ & Htb & _ & _ & _).
  apply PCD_Authenticate_ok in Hauth. subst m3.
  cbn [t_buffer set_called_PICC_RequestA] in Htb.
  split; [exact Hsak|]. split; [rewrite Hsak; reflexivity|].
  unfold MIFARE_Write, MIFARE_Read.
  cbn [called_PCD_Authenticate set_called_PCD_Authenticate t_buffer negb andb].
  change (Z.to_nat buffferSizeWrite) with 16%nat.
  rewrite memcpy_defined by (rewrite ?Htb; lia).
  do 2 eexists. split; [reflexivity|].
  cbn [called_PCD_Authenticate set_t_buffer t_buffer negb andb].
  change (Z.to_nat buffferSizeRead) with 18%nat.
  assert (Hlen4 : length (firstn 16 wbuf ++ skipn 16 (t_buffer m2)) = 18%nat).
  { rewrite length_app, firstn_length_le, length_skipn, Htb by exact Hw. lia. }
  rewrite memcpy_defined by lia.
  rewrite (firstn_all2 (n := 18)) by lia.
  split; [reflexivity|].
  split.
  { rewrite <- app_assoc, firstn_app, firstn_firstn, firstn_length_le by exact Hw.
    cbn [Nat.sub Nat.min firstn]. apply app_nil_r. }
  unfold card_decode. cbn [t_buffer].
  assert (Hdec : decode_block (firstn 16 wbuf ++ skipn 16 (t_buffer m2))
                 = Some sample_record).
  { rewrite (decode_block_prefix _ wbuf) by (apply firstn_9_written; exact Hw).
    rewrite (decode_block_prefix _ _ Hrec). reflexivity. }
  split; [|exact Hdec].
  rewrite <- Hdec. apply decode_block_prefix.
  rewrite <- app_assoc. rewrite !firstn_9_written by exact Hw. reflexivity.
Qed.

Lemma write_then_read_block_7_witness :
  exists m4 rbuf',
    MIFARE_Write authenticated_reader 7
      (firstn 16 (card_in_buffer 0x12345678 1 3 1 0 0)) buffferSizeWrite
    = Some (STATUS_OK, m4) /\
    MIFARE_Read m4 7 (repeat 0 18) buffferSizeRead = Some (STATUS_OK, rbuf') /\
    decode_block rbuf' = Some sample_record /\
    card_decode m4 = Some sample_record.
Proof.
  destruct (write_then_read_block_7
              present_reader requested_reader selected_reader authenticated_reader key_FF
              (firstn 16 (card_in_buffer 0x12345678 1 3 1 0 0)) (repeat 0 18))
    as (_ & _ & m4 & rbuf' & Hw & Hr & _ & Hd & Hc).
  - split; reflexivity.
  - reflexivity.
  - reflexivity.
  - reflexivity.
  - reflexivity.
  - simpl; lia.
  - reflexivity.
  - simpl; lia.
  - exists m4, rbuf'. repeat split; assumption.
Defined.

(** * Further properties of the reader *)

(** ** Reading the card serial *)

Lemma store_in_range (a : list Z) (i v : Z) :
  0 <= i < Z.of_nat (length a) ->
  Mem.store a i v = Some (Mem.update a (Z.to_nat i) v).
Proof.
  intros [H0 H1]. unfold Mem.store.
  apply Z.leb_le in H0. apply Z.ltb_lt in H1. rewrite H0, H1. reflexivity.
Qed.

Lemma fill_uidByte_4 (bytes : list Z) :
  (4 <= length bytes)%nat ->
  fill_uidByte 4 0 bytes = Some ([1; 2; 3; 4] ++ skipn 4 bytes).
Proof.
  intros Hlen.
  destruct bytes as [|b0 [|b1 [|b2 [|b3 rest]]]]; cbn [length] in Hlen; try lia.
  cbn [fill_uidByte].
  rewrite store_in_range by (cbn [length]; lia).
  change (to_byte (0 + 1)) with 1. cbn [Z.to_nat Mem.update].
  rewrite store_in_range by (cbn [length]; lia).
  change (to_byte (1 + 1)) with 2. change (Z.to_nat 1) with 1%nat. cbn [Mem.update].
  rewrite store_in_range by (cbn [length]; lia).
  change (to_byte (2 + 1)) with 3. change (Z.to_nat 2) with 2%nat. cbn [Mem.update].
  rewrite store_in_range by (cbn [length]; lia).
  change (to_byte (3 + 1)) with 4. change (Z.to_nat 3) with 3%nat. cbn [Mem.update].
  reflexivity.
Qed.

(** The loop of [PICC_ReadCardSerial] resolved. *)
Lemma PICC_ReadCardSerial_eq (m : MFRC522) :
  wf m ->
  PICC_ReadCardSerial m =
  Some (if card_is_in m && called_PICC_RequestA m
        then (true,
              set_called_PICC_RequestA
                (set_uid m (mkUid 4 ([1; 2; 3; 4] ++ skipn 4 (uidByte (uid m))) 0x08))
                false)
        else (false, m)).
Proof.
  intros [Hu _]. unfold PICC_ReadCardSerial.
  destruct (card_is_in m && called_PICC_RequestA m); [|reflexivity].
  cbn [uid set_uid set_called_PICC_RequestA set_size size uidByte].
  change (Z.to_nat 4) with 4%nat.
  rewrite fill_uidByte_4 by lia.
  reflexivity.
Qed.

(** X1: with its arrays in place [PICC_ReadCardSerial] answers, and it
    answers true exactly when a card is in and its request was
    acknowledged.  It then consumes the acknowledgement, sets [uid.size]
    to 4, the first four identifier bytes to 1, 2, 3, 4 (the other six
    stay) and [uid.sak] to 0x08, and leaves the stored block and the other
    flags alone; when it answers false it changes nothing. *)
Theorem PICC_ReadCardSerial_result (m : MFRC522) :
  wf m ->
  exists (b : bool) (m' : MFRC522),
    PICC_ReadCardSerial m = Some (b, m') /\
    (b = true <-> card_is_in m = true /\ called_PICC_RequestA m = true) /\
    (b = true ->
       m' = set_called_PICC_RequestA
              (set_uid m (mkUid 4 ([1; 2; 3; 4] ++ skipn 4 (uidByte (uid m))) 0x08))
              false) /\
    (b = false -> m' = m).
Proof.
  intros Hwf. rewrite PICC_ReadCardSerial_eq by exact Hwf.
  destruct (card_is_in m), (called_PICC_RequestA m); cbn [andb];
    do 2 eexists; (split; [reflexivity|]);
    repeat split; try reflexivity; try discriminate;
    intros [H1 H2]; discriminate.
Qed.

Lemma PICC_ReadCardSerial_result_witness :
  exists (b : bool) (m' : MFRC522),
    PICC_ReadCardSerial requested_reader = Some (b, m') /\
    (b = true <->
     card_is_in requested_reader = true /\ called_PICC_RequestA requested_reader = true) /\
    (b = true ->
       m' = set_called_PICC_RequestA
              (set_uid requested_reader
                 (mkUid 4 ([1; 2; 3; 4] ++ skipn 4 (uidByte (uid requested_reader))) 0x08))
              false) /\
    (b = false -> m' = requested_reader).
Proof.
  apply (PICC_ReadCardSerial_result requested_reader).
  split; reflexivity.
Defined.

(** X2: a request is good for one serial read: right after a read that
    answered true, a second read answers false and changes nothing. *)
Theorem PICC_ReadCardSerial_once (m m' : MFRC522) :
  PICC_ReadCardSerial m = Some (true, m') ->
  PICC_ReadCardSerial m' = Some (false, m').
Proof.
  intros H. apply PICC_ReadCardSerial_true in H as (_ & _ & _ & _ & _ & Hr & _).
  unfold PICC_ReadCardSerial. rewrite Hr, andb_false_r. reflexivity.
Qed.

Lemma PICC_ReadCardSerial_once_witness :
  PICC_ReadCardSerial selected_reader = Some (false, selected_reader).
Proof.
  apply (PICC_ReadCardSerial_once requested_reader selected_reader).
  reflexivity.
Defined.

(** X3: a serial read that directly follows [PICC_RequestA] answers true
    exactly when the request answered [STATUS_OK], that is when a card is
    in and no authentication is active; an acknowledgement left from an
    earlier request does not help, a failed request clears it. *)
Theorem PICC_ReadCardSerial_after_request (m : MFRC522) :
  wf m ->
  exists (b : bool) (m' : MFRC522),
    PICC_ReadCardSerial (snd (PICC_RequestA m)) = Some (b, m') /\
    (b = true <-> fst (PICC_RequestA m) = STATUS_OK) /\
    (b = true <-> card_is_in m = true /\ called_PCD_Authenticate m = false).
Proof.
  intros Hwf.
  rewrite PICC_ReadCardSerial_eq by (apply wf_PICC_RequestA; exact Hwf).
  unfold PICC_RequestA.
  destruct (called_PCD_Authenticate m) eqn:Ha, (card_is_in m) eqn:Hc;
    cbn [negb andb fst snd card_is_in called_PICC_RequestA set_called_PICC_RequestA];
    rewrite ?Hc; cbn [andb];
    do 2 eexists; (split; [reflexivity|]);
    repeat split; try reflexivity; try discriminate;
    intros [H1 H2]; discriminate.
Qed.

Lemma PICC_ReadCardSerial_after_request_witness :
  exists (b : bool) (m' : MFRC522),
    PICC_ReadCardSerial (snd (PICC_RequestA authenticated_reader)) = Some (b, m') /\
    (b = true <-> fst (PICC_RequestA authenticated_reader) = STATUS_OK) /\
    (b = true <->
     card_is_in authenticated_reader = true /\
     called_PCD_Authenticate authenticated_reader = false).
Proof.
  apply (PICC_ReadCardSerial_after_request authenticated_reader).
  split; reflexivity.
Defined.

(** ** What every sequence of calls keeps *)

Lemma run_invariant (P : MFRC522 -> Prop) :
  (forall c m m', P m -> exec c m = Some m' -> P m') ->
  forall cs m m', P m -> run cs m = Some m' -> P m'.
Proof.
  intros Hstep. induction cs as [|c cs IH]; intros m m' HP; cbn [run].
  - intros [= <-]. exact HP.
  - destruct (exec c m) as [m1|] eqn:He; [|discriminate].
    apply IH. exact (Hstep c m m1 HP He).
Qed.

Lemma exec_wf (c : call) (m m' : MFRC522) :
  wf m -> exec c m = Some m' -> wf m'.
Proof.
  intros Hwf. destruct c; cbn [exec].
  - intros [= <-]. exact Hwf.
  - intros [= <-]. exact Hwf.
  - intros [= <-]. exact Hwf.
  - intros [= <-]. apply wf_PICC_RequestA. exact Hwf.
  - intros [= <-]. exact Hwf.
  - destruct (PCD_Authenticate m command blockAddr key _) as [[st m1]|] eqn:He;
      [|discriminate].
    intros [= <-]. exact (wf_PCD_Authenticate _ _ _ _ _ _ _ Hwf He).
  - intros [= <-]. exact Hwf.
  - destruct (MIFARE_Read m blockAddr buffer bufferSize); [|discriminate].
    intros [= <-]. exact Hwf.
  - destruct (MIFARE_Write m blockAddr buffer bufferSize) as [[st m1]|] eqn:He;
      [|discriminate].
    intros [= <-]. exact (wf_MIFARE_Write _ _ _ _ _ _ Hwf He).
  - intros [= <-]. exact Hwf.
  - destruct (PICC_ReadCardSerial m) as [[b m1]|] eqn:He; [|discriminate].
    intros [= <-]. exact (wf_PICC_ReadCardSerial _ _ _ Hwf He).
  - intros He. exact (wf_card_in _ _ _ _ _ _ _ _ Hwf He).
  - intros [= <-]. exact Hwf.
Qed.

Lemma PCD_Authenticate_flag_only (m m' : MFRC522) (command blockAddr : Z)
      (key : MIFARE_Key) (u : Uid) (st : StatusCode) :
  PCD_Authenticate m command blockAddr key u = Some (st, m') ->
  exists f, m' = set_called_PCD_Authenticate m f.
Proof.
  unfold PCD_Authenticate.
  destruct (if (command =? PICC_CMD_MF_AUTH_KEY_A) && (blockAddr =? 7)
            then k0 <- Mem.load (keyByte key) 0 ;;
                 Some ((k0 =? 0xff) && negb (size u =? 0))
            else Some false) as [[|]|]; intros H; inversion H; eexists; reflexivity.
Qed.

Lemma MIFARE_Write_t_buffer_only (m m' : MFRC522) (blockAddr : Z) (buffer : list Z)
      (bufferSize : Z) (st : StatusCode) :
  MIFARE_Write m blockAddr buffer bufferSize = Some (st, m') ->
  exists t, m' = set_t_buffer m t.
Proof.
  unfold MIFARE_Write.
  destruct (negb (called_PCD_Authenticate m) && negb (blockAddr =? 4)
            && negb (bufferSize =? buffferSizeWrite)).
  - intros [= _ <-]. exists (t_buffer m). destruct m; reflexivity.
  - destruct (Mem.memcpy (t_buffer m) buffer (Z.to_nat buffferSizeWrite)) as [t|];
      [|discriminate].
    intros [= _ <-]. exists t. reflexivity.
Qed.



(** X5: started with a cleared identifier, the reader's identifier is in
    every reached state either cleared ([size] 0, [sak] 0) or the one the
    serial read sets ([size] 4, bytes 1, 2, 3, 4, [sak] 0x08); so the
    stored [sak] only ever classifies as Ultralight or MIFARE 1K. *)
Theorem run_keeps_uid (cs : list call) (m m' : MFRC522) :
  wf m -> uid_cleared_or_read (uid m) ->
  run cs m = Some m' ->
  uid_cleared_or_read (uid m') /\
  (PICC_GetType (sak (uid m')) = PICC_TYPE_MIFARE_UL \/
   PICC_GetType (sak (uid m')) = PICC_TYPE_MIFARE_1K).
Proof.
  intros Hwf Hu Hrun.
  assert (H : wf m' /\ uid_cleared_or_read (uid m')).
  { apply (run_invariant (fun x => wf x /\ uid_cleared_or_read (uid x)))
      with (cs := cs) (m := m); [|split; assumption|exact Hrun].
    clear. intros c m m' [Hwf Hu] He.
    split; [exact (exec_wf c m m' Hwf He)|].
    destruct c; cbn [exec] in He.
    - injection He as <-. exact Hu.
    - injection He as <-. exact Hu.
    - injection He as <-. exact Hu.
    - injection He as <-. unfold PICC_RequestA.
      destruct (negb (called_PCD_Authenticate m) && card_is_in m); exact Hu.
    - injection He as <-. exact Hu.
    - destruct (PCD_Authenticate m command blockAddr key _) as [[st m1]|] eqn:Ha;
        [|discriminate].
      injection He as <-. apply PCD_Authenticate_flag_only in Ha as [f ->]. exact Hu.
    - injection He as <-. exact Hu.
    - destruct (MIFARE_Read m blockAddr buffer bufferSize); [|discriminate].
      injection He as <-. exact Hu.
    - destruct (MIFARE_Write m blockAddr buffer bufferSize) as [[st m1]|] eqn:Hw;
        [|discriminate].
      injection He as <-. apply MIFARE_Write_t_buffer_only in Hw as [t ->]. exact Hu.
    - injection He as <-. exact Hu.
    - rewrite PICC_ReadCardSerial_eq in He by exact Hwf.
      injection He as <-.
      destruct (card_is_in m && called_PICC_RequestA m); cbn; [|exact Hu].
      right. repeat split.
    - rewrite card_in_t_buffer in He by exact Hwf. injection He as <-. exact Hu.
    - injection He as <-. left. split; reflexivity. }
  destruct H as [_ H]. split; [exact H|].
  destruct H as [[_ Hs] | [_ [Hs _]]]; rewrite Hs; [left | right]; reflexivity.
Qed.

Lemma run_keeps_uid_witness :
  run sample_calls fresh_reader = Some sample_final /\
  uid_cleared_or_read (uid sample_final) /\
  (PICC_GetType (sak (uid sample_final)) = PICC_TYPE_MIFARE_UL \/
   PICC_GetType (sak (uid sample_final)) = PICC_TYPE_MIFARE_1K).
Proof.
  split; [reflexivity|].
  apply (run_keeps_uid sample_calls fresh_reader sample_final).
  - split; reflexivity.
  - left. split; reflexivity.
  - reflexivity.
Defined.

(** ** Staying inside the arrays *)

Lemma PCD_Authenticate_defined (m : MFRC522) (command blockAddr : Z)
      (key : MIFARE_Key) (u : Uid) :
  length (keyByte key) = Z.to_nat MF_KEY_SIZE ->
  exists res, PCD_Authenticate m command blockAddr key u = Some res.
Proof.
  intros Hkey. destruct key as [[|k0 ks]]; [discriminate Hkey|].
  unfold PCD_Authenticate. cbn [keyByte Mem.load Z.leb Z.compare Z.to_nat nth_error].
  destruct ((command =? PICC_CMD_MF_AUTH_KEY_A) && (blockAddr =? 7));
    eexists; reflexivity.
Qed.

Lemma exec_defined (c : call) (m : MFRC522) :
  wf m -> call_sized c -> exists m', exec c m = Some m'.
Proof.
  intros Hwf Hc. pose proof Hwf as [Hu Ht].
  destruct c; cbn [exec call_sized] in *; try (eexists; reflexivity).
  - destruct (PCD_Authenticate_defined m command blockAddr key
                (match u with Some u' => u' | None => uid m end) Hc)
      as (res & ->).
    eexists; reflexivity.
  - unfold MIFARE_Read.
    destruct (negb (called_PCD_Authenticate m) && negb (blockAddr =? 4)
              && negb (bufferSize =? buffferSizeRead)); [eexists; reflexivity|].
    rewrite memcpy_defined by (change (Z.to_nat buffferSizeRead) with 18%nat in *; lia).
    eexists; reflexivity.
  - unfold MIFARE_Write.
    destruct (negb (called_PCD_Authenticate m) && negb (blockAddr =? 4)
              && negb (bufferSize =? buffferSizeWrite)); [eexists; reflexivity|].
    rewrite memcpy_defined by (change (Z.to_nat buffferSizeWrite) with 16%nat in *; lia).
    eexists; reflexivity.
  - rewrite PICC_ReadCardSerial_eq by exact Hwf. eexists; reflexivity.
  - rewrite card_in_t_buffer by exact Hwf. eexists; reflexivity.
Qed.

(** X6: no sequence of calls leaves the arrays: when every key has 6
    bytes, every read buffer 18 and every write buffer 16, all array
    accesses and copies of the sequence are in bounds and the run ends in a
    reader whose arrays have their declared sizes. *)
Theorem run_in_bounds (cs : list call) (m : MFRC522) :
  wf m -> Forall call_sized cs -> exists m', run cs m = Some m' /\ wf m'.
Proof.
  revert m. induction cs as [|c cs IH]; intros m Hwf Hcs; cbn [run].
  - exists m. split; [reflexivity | exact Hwf].
  - inversion Hcs as [|c' cs' Hc Hcs']; subst.
    destruct (exec_defined c m Hwf Hc) as [m1 He]. rewrite He.
    apply IH; [exact (exec_wf c m m1 Hwf He) | exact Hcs'].
Qed.

Lemma run_in_bounds_witness :
  exists m', run sample_calls fresh_reader = Some m' /\ wf m'.
Proof.
  apply (run_in_bounds sample_calls fresh_reader).
  - split; reflexivity.
  - unfold sample_calls.
    repeat (apply Forall_cons; [cbn; try exact I; try reflexivity; lia|]).
    apply Forall_nil.
Defined.

Lemma memcpy_none (dst src : list Z) (n : nat) :
  Mem.memcpy dst src n = None <-> (length src < n)%nat \/ (length dst < n)%nat.
Proof.
  unfold Mem.memcpy.
  destruct (Nat.leb_spec n (length src)) as [Hs | Hs];
    destruct (Nat.leb_spec n (length dst)) as [Hd | Hd]; cbn [andb];
    split; intros H; try discriminate H; try reflexivity; try lia; auto.
Qed.

(** X7: the announced buffer size never limits the copy.  Whenever the
    guard lets a read through (flag set, block 4, or announced size 18) it
    copies 18 bytes, so it leaves the caller's buffer exactly when that
    buffer holds fewer than 18 bytes; a write that is let through reads 16
    bytes and leaves the caller's buffer exactly when it holds fewer. *)
Theorem MIFARE_copy_out_of_bounds (m : MFRC522) (blockAddr : Z) (buffer : list Z)
        (bufferSize : Z) :
  wf m ->
  (MIFARE_Read m blockAddr buffer bufferSize = None <->
   (called_PCD_Authenticate m = true \/ blockAddr = 4 \/ bufferSize = buffferSizeRead) /\
   (length buffer < 18)%nat) /\
  (MIFARE_Write m blockAddr buffer bufferSize = None <->
   (called_PCD_Authenticate m = true \/ blockAddr = 4 \/ bufferSize = buffferSizeWrite) /\
   (length buffer < 16)%nat).
Proof.
  intros [_ Ht]. unfold MIFARE_Read, MIFARE_Write.
  change (Z.to_nat buffferSizeRead) with 18%nat.
  change (Z.to_nat buffferSizeWrite) with 16%nat.
  split.
  - destruct (Mem.memcpy buffer (t_buffer m) 18) as [x|] eqn:Hc.
    + assert (Hn : ~ (length buffer < 18)%nat).
      { intros Hl. assert (Hnone : Mem.memcpy buffer (t_buffer m) 18 = None)
          by (apply memcpy_none; right; exact Hl). congruence. }
      destruct (negb (called_PCD_Authenticate m) && negb (blockAddr =? 4)
                && negb (bufferSize =? buffferSizeRead));
        split; intros H; try discriminate H; destruct H as [_ H]; contradiction.
    + apply memcpy_none in Hc. assert (Hl : (length buffer < 18)%nat) by lia.
      destruct (called_PCD_Authenticate m); cbn [negb andb].
      { split; [intros _; split; [left; reflexivity | exact Hl] | reflexivity]. }
      destruct (Z.eqb_spec blockAddr 4) as [Hb | Hb]; cbn [negb andb].
      { split; [intros _; split; [right; left; exact Hb | exact Hl] | reflexivity]. }
      destruct (Z.eqb_spec bufferSize buffferSizeRead) as [Hs | Hs]; cbn [negb].
      { split; [intros _; split; [right; right; exact Hs | exact Hl] | reflexivity]. }
      split; [intros H; discriminate H|].
      intros [[H | [H | H]] _]; [discriminate H | contradiction | contradiction].
  - destruct (Mem.memcpy (t_buffer m) buffer 16) as [x|] eqn:Hc.
    + assert (Hn : ~ (length buffer < 16)%nat).
      { intros Hl. assert (Hnone : Mem.memcpy (t_buffer m) buffer 16 = None)
          by (apply memcpy_none; left; exact Hl). congruence. }
      destruct (negb (called_PCD_Authenticate m) && negb (blockAddr =? 4)
                && negb (bufferSize =? buffferSizeWrite));
        split; intros H; try discriminate H; destruct H as [_ H]; contradiction.
    + apply memcpy_none in Hc. assert (Hl : (length buffer < 16)%nat) by lia.
      destruct (called_PCD_Authenticate m); cbn [negb andb].
      { split; [intros _; split; [left; reflexivity | exact Hl] | reflexivity]. }
      destruct (Z.eqb_spec blockAddr 4) as [Hb | Hb]; cbn [negb andb].
      { split; [intros _; split; [right; left; exact Hb | exact Hl] | reflexivity]. }
      destruct (Z.eqb_spec bufferSize buffferSizeWrite) as [Hs | Hs]; cbn [negb].
      { split; [intros _; split; [right; right; exact Hs | exact Hl] | reflexivity]. }
      split; [intros H; discriminate H|].
      intros [[H | [H | H]] _]; [discriminate H | contradiction | contradiction].
Qed.

Lemma MIFARE_copy_out_of_bounds_witness :
  MIFARE_Read authenticated_reader 4 (repeat 0 16) 16 = None.
Proof.
  apply (proj1 (MIFARE_copy_out_of_bounds authenticated_reader 4 (repeat 0 16) 16
                  (conj eq_refl eq_refl))).
  split; [left; reflexivity | simpl; lia].
Defined.

(** ** One stored block *)

Lemma MIFARE_Write_ok (m m' : MFRC522) (blockAddr : Z) (buffer : list Z)
      (bufferSize : Z) :
  MIFARE_Write m blockAddr buffer bufferSize = Some (STATUS_OK, m') ->
  (16 <= length buffer)%nat /\ (16 <= length (t_buffer m))%nat /\
  m' = set_t_buffer m (firstn 16 buffer ++ skipn 16 (t_buffer m)).
Proof.
  unfold MIFARE_Write.
  destruct (negb (called_PCD_Authenticate m) && negb (blockAddr =? 4)
            && negb (bufferSize =? buffferSizeWrite)); [intros H; discriminate H|].
  change (Z.to_nat buffferSizeWrite) with 16%nat. unfold Mem.memcpy.
  destruct (Nat.leb_spec 16 (length buffer)) as [Hb | Hb]; [|intros H; discriminate H].
  destruct (Nat.leb_spec 16 (length (t_buffer m))) as [Ht | Ht];
    [|intros H; discriminate H].
  cbn [andb]. intros [= <-]. repeat split; assumption.
Qed.

Lemma MIFARE_Read_ok (m : MFRC522) (blockAddr : Z) (buffer buffer' : list Z)
      (bufferSize : Z) :
  MIFARE_Read m blockAddr buffer bufferSize = Some (STATUS_OK, buffer') ->
  (18 <= length buffer)%nat /\ (18 <= length (t_buffer m))%nat /\
  buffer' = firstn 18 (t_buffer m) ++ skipn 18 buffer.
Proof.
  unfold MIFARE_Read.
  destruct (negb (called_PCD_Authenticate m) && negb (blockAddr =? 4)
            && negb (bufferSize =? buffferSizeRead)); [intros H; discriminate H|].
  change (Z.to_nat buffferSizeRead) with 18%nat. unfold Mem.memcpy.
  destruct (Nat.leb_spec 18 (length (t_buffer m))) as [Ht | Ht];
    [|intros H; discriminate H].
  destruct (Nat.leb_spec 18 (length buffer)) as [Hb | Hb]; [|intros H; discriminate H].
  cbn [andb]. intros [= <-]. repeat split; assumption.
Qed.

(** X8: the reader keeps a single block and ignores the block address
    when it copies: after a write to any block that answered [STATUS_OK],
    a read of any block that answers [STATUS_OK] hands out the 16 bytes
    just written, followed by bytes 16 and 17 of the block stored before
    the write; the caller's read buffer beyond 18 bytes is untouched. *)
Theorem MIFARE_Read_after_Write (m m' : MFRC522) (wblock rblock : Z)
        (wbuf rbuf rbuf' : list Z) (wsize rsize : Z) :
  wf m ->
  MIFARE_Write m wblock wbuf wsize = Some (STATUS_OK, m') ->
  MIFARE_Read m' rblock rbuf rsize = Some (STATUS_OK, rbuf') ->
  rbuf' = firstn 16 wbuf ++ skipn 16 (t_buffer m) ++ skipn 18 rbuf /\
  length rbuf' = length rbuf.
Proof.
  intros [_ Ht] Hw Hr.
  apply MIFARE_Write_ok in Hw as (Hwl & _ & ->).
  apply MIFARE_Read_ok in Hr as (Hrl & _ & ->).
  cbn [t_buffer set_t_buffer].
  assert (Hlen : length (firstn 16 wbuf ++ skipn 16 (t_buffer m)) = 18%nat).
  { rewrite length_app, firstn_length_le, length_skipn, Ht by exact Hwl. lia. }
  rewrite (firstn_all2 (n := 18)) by lia.
  split; [rewrite <- app_assoc; reflexivity|].
  rewrite length_app, Hlen, length_skipn. lia.
Qed.

Lemma MIFARE_Read_after_Write_witness :
  exists m' rbuf',
    MIFARE_Write authenticated_reader 7 (repeat 0xAA 16) 16 = Some (STATUS_OK, m') /\
    MIFARE_Read m' 1 (repeat 0 20) 0 = Some (STATUS_OK, rbuf') /\
    rbuf' = firstn 16 (repeat 0xAA 16) ++ skipn 16 (t_buffer authenticated_reader)
            ++ skipn 18 (repeat 0 20) /\
    length rbuf' = length (repeat 0 20).
Proof.
  do 2 eexists. split; [reflexivity|]. split; [reflexivity|].
  eapply (MIFARE_Read_after_Write authenticated_reader _ 7 1 (repeat 0xAA 16)
           (repeat 0 20) _ 16 0).
  - split; reflexivity.
  - reflexivity.
  - reflexivity.
Defined.

(** X9: a record survives the write path: for every record with a 32-bit
    cookie and 8-bit fields, a write of the block [card_in] would build
    that answers [STATUS_OK] leaves a reader from which [card_decode]
    gives the record back, whatever was stored before; and such a write
    answers [STATUS_OK] whenever the guard lets it through. *)
Theorem card_decode_after_Write (m : MFRC522) (r : DataRecord) (blockAddr bufferSize : Z) :
  wf m -> valid_record r ->
  called_PCD_Authenticate m = true \/ blockAddr = 4 \/ bufferSize = buffferSizeWrite ->
  exists m',
    MIFARE_Write m blockAddr
      (card_in_buffer (cookie r) (version r) (folder r) (mode r) (special r) (special2 r))
      bufferSize = Some (STATUS_OK, m') /\
    card_decode m' = Some r /\ wf m'.
Proof.
  intros Hwf (Hc & _ & _ & Hmo & _ & _) Hguard. pose proof Hwf as [Hu Ht].
  set (buf := card_in_buffer (cookie r) (version r) (folder r) (mode r)
                (special r) (special2 r)).
  assert (Hg : negb (called_PCD_Authenticate m) && negb (blockAddr =? 4)
               && negb (bufferSize =? buffferSizeWrite) = false).
  { destruct Hguard as [H | [H | H]].
    - rewrite H. reflexivity.
    - subst blockAddr. cbn [Z.eqb Pos.eqb negb]. rewrite andb_false_r. reflexivity.
    - subst bufferSize. rewrite Z.eqb_refl. apply andb_false_r. }
  unfold MIFARE_Write. rewrite Hg.
  change (Z.to_nat buffferSizeWrite) with 16%nat.
  rewrite memcpy_defined by (subst buf; cbn [card_in_buffer length]; lia).
  eexists. split; [reflexivity|].
  split.
  - unfold card_decode. cbn [t_buffer set_t_buffer].
    rewrite (decode_block_prefix _ buf)
      by (apply firstn_9_written; subst buf; cbn [card_in_buffer length]; lia).
    subst buf. rewrite card_in_buffer_bytes, decode_block_cons.
    rewrite cookie_reassembled by exact Hc.
    rewrite (Z.mod_small (mode r)) by exact Hmo.
    destruct r; reflexivity.
  - split; [exact Hu|]. cbn [t_buffer set_t_buffer].
    rewrite length_app, firstn_length_le, length_skipn, Ht
      by (subst buf; cbn [card_in_buffer length]; lia).
    reflexivity.
Qed.

Lemma card_decode_after_Write_witness :
  exists m',
    MIFARE_Write authenticated_reader 7
      (card_in_buffer (cookie sample_record) (version sample_record)
         (folder sample_record) (mode sample_record) (special sample_record)
         (special2 sample_record)) 0 = Some (STATUS_OK, m') /\
    card_decode m' = Some sample_record /\ wf m'.
Proof.
  apply (card_decode_after_Write authenticated_reader sample_record 7 0).
  - split; reflexivity.
  - unfold valid_record, is_uint32, is_byte; simpl; lia.
  - left. reflexivity.
Defined.

(** ** Authentication comes and goes *)

(** X10: [PCD_StopCrypto1] undoes an authentication attempt: from a
    reader that is not authenticated, any call of [PCD_Authenticate],
    granted or not, followed by [PCD_StopCrypto1] gives the reader back
    unchanged; and [PCD_StopCrypto1] twice is the same as once. *)
Theorem PCD_StopCrypto1_after_Authenticate (m m' : MFRC522) (command blockAddr : Z)
        (key : MIFARE_Key) (u : Uid) (st : StatusCode) :
  called_PCD_Authenticate m = false ->
  PCD_Authenticate m command blockAddr key u = Some (st, m') ->
  PCD_StopCrypto1 m' = m /\ PCD_StopCrypto1 (PCD_StopCrypto1 m') = PCD_StopCrypto1 m'.
Proof.
  intros Ha Hrun. apply PCD_Authenticate_flag_only in Hrun as [f ->].
  split; [|reflexivity].
  unfold PCD_StopCrypto1. destruct m; cbn in *. subst. reflexivity.
Qed.

Lemma PCD_StopCrypto1_after_Authenticate_witness :
  PCD_StopCrypto1 authenticated_reader = selected_reader /\
  PCD_StopCrypto1 (PCD_StopCrypto1 authenticated_reader)
  = PCD_StopCrypto1 authenticated_reader.
Proof.
  apply (PCD_StopCrypto1_after_Authenticate selected_reader authenticated_reader
           PICC_CMD_MF_AUTH_KEY_A 7 key_FF (uid selected_reader) STATUS_OK).
  - reflexivity.
  - reflexivity.
Defined.

(** X11: [card_out] does not end an authentication.  If the card is taken
    off while the authenticated flag is set and a card is put on again,
    [PICC_RequestA] answers [STATUS_ERROR]; once [PCD_StopCrypto1] is
    called, the same request answers [STATUS_OK]. *)
Theorem card_swap_while_authenticated (m m' : MFRC522)
        (c v f mo s s2 : Z) :
  called_PCD_Authenticate m = true ->
  card_in (card_out m) c v f mo s s2 = Some m' ->
  fst (PICC_RequestA m') = STATUS_ERROR /\
  fst (PICC_RequestA (PCD_StopCrypto1 m')) = STATUS_OK.
Proof.
  intros Ha. unfold card_in.
  destruct (Mem.memcpy _ _ _) as [t|]; [|intros H; discriminate H].
  intros [= <-]. unfold PICC_RequestA. cbn. rewrite Ha. split; reflexivity.
Qed.

Lemma card_swap_while_authenticated_witness :
  exists m',
    card_in (card_out authenticated_reader) 0x12345678 1 3 1 0 0 = Some m' /\
    fst (PICC_RequestA m') = STATUS_ERROR /\
    fst (PICC_RequestA (PCD_StopCrypto1 m')) = STATUS_OK.
Proof.
  eexists. split; [reflexivity|].
  eapply (card_swap_while_authenticated authenticated_reader _ 0x12345678 1 3 1 0 0).
  - reflexivity.
  - reflexivity.
Defined.

(** ** More on the card types *)

Lemma PICC_GetType_matched (s : Z) :
  In (Z.land s 0x7F) PICC_GetType_cases -> PICC_GetType s <> PICC_TYPE_UNKNOWN.
Proof.
  unfold PICC_GetType. generalize (Z.land s 0x7F). intros x Hin.
  cbv [PICC_GetType_cases In] in Hin.
  repeat (destruct Hin as [<- | Hin]; [discriminate|]). contradiction.
Qed.

(** X12: [PICC_GetType] answers Unknown exactly for the values whose low
    seven bits match no case, and it never answers
    [PICC_TYPE_MIFARE_DESFIRE], although that type is declared and named. *)
Theorem PICC_GetType_unknown_iff (s : Z) :
  (PICC_GetType s = PICC_TYPE_UNKNOWN <-> ~ In (Z.land s 0x7F) PICC_GetType_cases) /\
  PICC_GetType s <> PICC_TYPE_MIFARE_DESFIRE.
Proof.
  split.
  - split.
    + intros H Hin. exact (PICC_GetType_matched s Hin H).
    + intros Hn. destruct (PICC_GetType_default s) as [H | H]; [contradiction | exact H].
  - unfold PICC_GetType. generalize (Z.land s 0x7F). intros x.
    destruct x as [|p|p]; try discriminate.
    do 8 (try (destruct p as [p|p|]; try discriminate)).
Qed.

Lemma PICC_GetType_unknown_iff_witness :
  PICC_GetType 0x28 = PICC_TYPE_UNKNOWN.
Proof.
  apply (proj1 (PICC_GetType_unknown_iff 0x28)).
  cbv [In PICC_GetType_cases]. intros H.
  repeat (destruct H as [H | H]; [discriminate H|]). exact H.
Defined.

(** X13: different card types have different names: [PICC_GetTypeName]
    is injective, so a name identifies the type. *)
Theorem PICC_GetTypeName_injective (t1 t2 : PICC_Type) :
  PICC_GetTypeName t1 = PICC_GetTypeName t2 -> t1 = t2.
Proof.
  destruct t1, t2; intros H; try reflexivity; discriminate H.
Qed.

Lemma PICC_GetTypeName_injective_witness :
  PICC_GetType 0x88 = PICC_TYPE_MIFARE_1K.
Proof.
  apply (PICC_GetTypeName_injective (PICC_GetType 0x88) PICC_TYPE_MIFARE_1K).
  reflexivity.
Defined.

(** ** Decoding blocks *)

Lemma cookie_of_bytes (b0 b1 b2 b3 : Z) :
  is_byte b0 -> is_byte b1 -> is_byte b2 -> is_byte b3 ->
  to_uint32 (to_uint32 (to_uint32 (to_uint32 (Z.shiftl (to_uint32 b0) 24) +
                                   to_uint32 (Z.shiftl (to_uint32 b1) 16)) +
                        to_uint32 (Z.shiftl (to_uint32 b2) 8)) +
             to_uint32 (Z.shiftl (to_uint32 b3) 0))
  = b0 * 16777216 + b1 * 65536 + b2 * 256 + b3.
Proof.
  unfold is_byte, to_uint32. change (2 ^ 8) with 256. change (2 ^ 32) with 4294967296.
  intros H0 H1 H2 H3.
  rewrite !Z.shiftl_mul_pow2 by lia.
  change (2 ^ 0) with 1. change (2 ^ 8) with 256. change (2 ^ 16) with 65536.
  change (2 ^ 24) with 16777216.
  rewrite !(Z.mod_small b0), !(Z.mod_small b1), !(Z.mod_small b2), !(Z.mod_small b3) by lia.
  rewrite (Z.mod_small (b0 * _)), (Z.mod_small (b1 * _)),
          (Z.mod_small (b2 * _)), (Z.mod_small (b3 * _)) by lia.
  rewrite (Z.mod_small (b0 * _ + b1 * _)) by lia.
  rewrite (Z.mod_small (b0 * _ + b1 * _ + b2 * _)) by lia.
  rewrite Z.mod_small by lia. lia.
Qed.

(** X14: [card_decode]'s body reads nine bytes: it is out of bounds
    exactly on blocks shorter than nine bytes, and on a block of bytes it
    gives a record with a 32-bit cookie and 8-bit fields. *)
Theorem decode_block_defined (block : list Z) :
  Forall is_byte block ->
  (decode_block block = None <-> (length block < 9)%nat) /\
  (forall r, decode_block block = Some r -> valid_record r).
Proof.
  intros Hb.
  destruct block as [|b0 [|b1 [|b2 [|b3 [|b4 [|b5 [|b6 [|b7 [|b8 rest]]]]]]]]];
    try (split; [split; [intros _; cbn [length]; lia | reflexivity]
                | intros r H; discriminate H]).
  repeat match goal with
         | H : Forall _ (_ :: _) |- _ => inversion H; clear H; subst
         end.
  rewrite decode_block_cons, cookie_of_bytes by assumption. split.
  - split; [intros H; discriminate H | cbn [length]; lia].
  - intros r H.
    replace r with (mkDataRecord (b0 * 16777216 + b1 * 65536 + b2 * 256 + b3)
                      b4 b5 b6 b7 b8) by congruence.
    unfold valid_record. cbn [cookie version folder mode special special2].
    repeat split; try assumption; unfold is_byte, is_uint32 in *;
      change (2 ^ 8) with 256 in *; change (2 ^ 32) with 4294967296; lia.
Qed.

Lemma decode_block_defined_witness :
  (decode_block [1; 2; 3; 4; 5; 6; 7; 8] = None <->
   (length [1; 2; 3; 4; 5; 6; 7; 8] < 9)%nat) /\
  (forall r, decode_block [1; 2; 3; 4; 5; 6; 7; 8] = Some r -> valid_record r).
Proof.
  apply (decode_block_defined [1; 2; 3; 4; 5; 6; 7; 8]).
  repeat (apply Forall_cons; [unfold is_byte; lia|]). apply Forall_nil.
Defined.

(** X15: encoding is also a right inverse of decoding on the blocks
    [card_in] can produce: for an 18-byte block of bytes that is zero from
    position 9 on, building [card_in]'s block from the decoded record
    gives the block back. *)
Theorem card_in_buffer_decode_block (block : list Z) (r : DataRecord) :
  length block = 18%nat -> Forall is_byte block ->
  skipn 9 block = repeat 0 9 ->
  decode_block block = Some r ->
  card_in_buffer (cookie r) (version r) (folder r) (mode r) (special r) (special2 r)
  = block.
Proof.
  intros Hlen Hb Hpad.
  destruct block as [|b0 [|b1 [|b2 [|b3 [|b4 [|b5 [|b6 [|b7 [|b8 rest]]]]]]]]];
    try discriminate Hlen.
  cbn [skipn] in Hpad. subst rest.
  repeat match goal with
         | H : Forall _ (_ :: _) |- _ => inversion H; clear H; subst
         end.
  rewrite decode_block_cons, cookie_of_bytes by assumption. intros H.
  replace r with (mkDataRecord (b0 * 16777216 + b1 * 65536 + b2 * 256 + b3)
                    b4 b5 b6 b7 b8) by congruence.
  cbn [cookie version folder mode special special2].
  rewrite card_in_buffer_bytes.
  unfold is_byte in *. change (2 ^ 8) with 256 in *. change (2 ^ 16) with 65536.
  change (2 ^ 24) with 16777216.
  assert (E0 : (b0 * 16777216 + b1 * 65536 + b2 * 256 + b3) / 16777216 mod 256 = b0)
    by (Z.div_mod_to_equations; lia).
  assert (E1 : (b0 * 16777216 + b1 * 65536 + b2 * 256 + b3) / 65536 mod 256 = b1)
    by (Z.div_mod_to_equations; lia).
  assert (E2 : (b0 * 16777216 + b1 * 65536 + b2 * 256 + b3) / 256 mod 256 = b2)
    by (Z.div_mod_to_equations; lia).
  assert (E3 : (b0 * 16777216 + b1 * 65536 + b2 * 256 + b3) mod 256 = b3)
    by (Z.div_mod_to_equations; lia).
  rewrite E0, E1, E2, E3, (Z.mod_small b6) by lia.
  reflexivity.
Qed.

Lemma card_in_buffer_decode_block_witness :
  card_in_buffer 0x1337b347 2 7 4 5 6 = t_buffer selected_reader.
Proof.
  apply (card_in_buffer_decode_block (t_buffer selected_reader) other_record).
  - reflexivity.
  - cbn [t_buffer selected_reader].
    repeat (apply Forall_cons; [unfold is_byte; lia|]). apply Forall_nil.
  - reflexivity.
  - reflexivity.
Defined.

(** * Properties of the ring colours *)

Lemma Ring_scale_product (c s : Z) :
  is_byte c -> is_byte s -> 0 <= c * s <= 65025.
Proof. unfold is_byte. change (2 ^ 8) with 256. intros Hc Hs. nia. Qed.

Lemma Ring_scale_value (c s : Z) :
  is_byte c -> is_byte s -> Ring.scale c s = c * s / 255.
Proof.
  intros Hc Hs. pose proof (Ring_scale_product c s Hc Hs) as Hp.
  unfold Ring.scale, Ring.to_uint16, to_byte, is_byte in *.
  change (2 ^ 8) with 256 in *. change (2 ^ 16) with 65536.
  rewrite (Z.mod_small c) by lia.
  rewrite (Z.mod_small (c * s)) by lia.
  apply Z.mod_small. Z.div_mod_to_equations. lia.
Qed.

(** X16: scaling a colour component never overflows: for bytes [c] and
    [s] the 16-bit product is exact, so the result is the integer quotient
    [c * s / 255] on the 8-bit target and where [int] is wider alike, and
    it is a byte no larger than [c] and no larger than [s]. *)
Theorem Ring_scale_exact (c s : Z) :
  is_byte c -> is_byte s ->
  Ring.scale c s = c * s / 255 /\
  Ring.scale c s = Ring.scale_wide c s /\
  0 <= Ring.scale c s <= c /\ Ring.scale c s <= s.
Proof.
  intros Hc Hs. pose proof (Ring_scale_product c s Hc Hs) as Hp.
  rewrite Ring_scale_value by assumption.
  unfold Ring.scale_wide, Ring.to_uint16, to_byte, is_byte in *.
  change (2 ^ 8) with 256 in *. change (2 ^ 16) with 65536.
  rewrite (Z.mod_small c) by lia.
  split; [reflexivity|].
  split; [symmetry; apply Z.mod_small; Z.div_mod_to_equations; lia|].
  split; [split|]; Z.div_mod_to_equations; nia.
Qed.

Lemma Ring_scale_exact_witness :
  Ring.scale 200 16 = 200 * 16 / 255 /\
  Ring.scale 200 16 = Ring.scale_wide 200 16 /\
  0 <= Ring.scale 200 16 <= 200 /\ Ring.scale 200 16 <= 16.
Proof.
  apply (Ring_scale_exact 200 16); unfold is_byte; lia.
Defined.

(** X17: full brightness keeps a colour and zero brightness turns it
    off; a pure colour scaled by [s] has exactly [s] in its one channel. *)
Theorem Ring_mul_ends (c : Ring.color_t) (s : Z) :
  Ring.valid_color c -> is_byte s ->
  Ring.mul c 255 = c /\
  Ring.mul c 0 = Ring.mk_color_t 0 0 0 /\
  Ring.mul Ring.red s = Ring.mk_color_t s 0 0 /\
  Ring.mul Ring.green s = Ring.mk_color_t 0 s 0 /\
  Ring.mul Ring.blue s = Ring.mk_color_t 0 0 s.
Proof.
  intros (Hr & Hg & Hb) Hs.
  assert (H255 : is_byte 255) by (unfold is_byte; lia).
  assert (H0 : is_byte 0) by (unfold is_byte; lia).
  assert (Efull : forall x, is_byte x -> Ring.scale x 255 = x).
  { intros x Hx. rewrite Ring_scale_value by assumption. apply Z.div_mul. lia. }
  assert (Eoff : forall x, is_byte x -> Ring.scale x 0 = 0).
  { intros x Hx. rewrite Ring_scale_value by assumption.
    rewrite Z.mul_0_r. reflexivity. }
  assert (Epure : Ring.scale 255 s = s).
  { rewrite Ring_scale_value by assumption.
    rewrite Z.mul_comm. apply Z.div_mul. lia. }
  assert (Ezero : Ring.scale 0 s = 0).
  { rewrite Ring_scale_value by assumption. reflexivity. }
  unfold Ring.mul, Ring.red, Ring.green, Ring.blue.
  cbn [Ring.r Ring.g Ring.b].
  rewrite !Efull, !Eoff, Epure, Ezero by assumption.
  destruct c; repeat split.
Qed.

Lemma Ring_mul_ends_witness :
  Ring.mul (Ring.mk_color_t 10 20 30) 255 = Ring.mk_color_t 10 20 30 /\
  Ring.mul (Ring.mk_color_t 10 20 30) 0 = Ring.mk_color_t 0 0 0 /\
  Ring.mul Ring.red Ring.brightness_max = Ring.mk_color_t Ring.brightness_max 0 0 /\
  Ring.mul Ring.green Ring.brightness_max = Ring.mk_color_t 0 Ring.brightness_max 0 /\
  Ring.mul Ring.blue Ring.brightness_max = Ring.mk_color_t 0 0 Ring.brightness_max.
Proof.
  apply (Ring_mul_ends (Ring.mk_color_t 10 20 30) Ring.brightness_max).
  - unfold Ring.valid_color, is_byte; cbn; lia.
  - unfold is_byte, Ring.brightness_max; lia.
Defined.

(** X18: more brightness never darkens: for a colour of bytes and
    brightness values [s1 <= s2], every channel of the colour scaled by
    [s1] is at most the same channel scaled by [s2], and the scaled colour
    is again a colour of bytes, no channel above the original one. *)
Theorem Ring_mul_monotone (c : Ring.color_t) (s1 s2 : Z) :
  Ring.valid_color c -> is_byte s1 -> is_byte s2 -> s1 <= s2 ->
  Ring.r (Ring.mul c s1) <= Ring.r (Ring.mul c s2) /\
  Ring.g (Ring.mul c s1) <= Ring.g (Ring.mul c s2) /\
  Ring.b (Ring.mul c s1) <= Ring.b (Ring.mul c s2) /\
  Ring.valid_color (Ring.mul c s2) /\
  Ring.r (Ring.mul c s2) <= Ring.r c /\
  Ring.g (Ring.mul c s2) <= Ring.g c /\
  Ring.b (Ring.mul c s2) <= Ring.b c.
Proof.
  intros (Hr & Hg & Hb) Hs1 Hs2 Hle.
  assert (Hmono : forall x, is_byte x -> Ring.scale x s1 <= Ring.scale x s2).
  { intros x Hx. rewrite !Ring_scale_value by assumption.
    apply Z.div_le_mono; [lia|]. unfold is_byte in *. nia. }
  assert (Hbound : forall x, is_byte x ->
            is_byte (Ring.scale x s2) /\ Ring.scale x s2 <= x).
  { intros x Hx. rewrite Ring_scale_value by assumption.
    unfold is_byte in *. change (2 ^ 8) with 256 in *.
    split; [split|]; Z.div_mod_to_equations; nia. }
  unfold Ring.valid_color, Ring.mul. cbn [Ring.r Ring.g Ring.b].
  destruct (Hbound _ Hr) as [Br Lr]. destruct (Hbound _ Hg) as [Bg Lg].
  destruct (Hbound _ Hb) as [Bb Lb].
  repeat split; try (apply Hmono; assumption); try assumption;
    try apply Br; try apply Bg; try apply Bb.
Qed.

Lemma Ring_mul_monotone_witness :
  Ring.r (Ring.mul (Ring.mk_color_t 10 20 30) 16)
  <= Ring.r (Ring.mul (Ring.mk_color_t 10 20 30) 50).
Proof.
  apply (Ring_mul_monotone (Ring.mk_color_t 10 20 30) 16 50).
  - unfold Ring.valid_color, is_byte; cbn; lia.
  - unfold is_byte; lia.
  - unfold is_byte; lia.
  - lia.
Defined.
